(** * kube-state-metrics: the pod, deployment and namespace collectors

    A shallow embedding of [pkg/collectors] (pod, deployment and namespace
    metric families with their default-label wrappers) and the properties
    of the specification that concern them.

    The Go code builds [*metrics.Metric] cells and then rewrites their
    label slices in place inside the wrappers, appending to package-level
    slices.  The embedding therefore keeps an explicit store of string
    cells (the backing arrays of every [[]string]) and of [Metric] cells,
    with Go's [append] written out (in place when the capacity allows,
    a new array otherwise), and a run-time panic as an error result. *)

From Stdlib Require Import ZArith Floats.
From stdpp Require Import base option list strings gmap.

Open Scope string_scope.
Open Scope list_scope.

(** ** Go values *)

(** [float64] is the kernel's binary64. *)
Abbreviation float64 := float (only parsing).

(** [float64(i)] for an integer [i]: rounding to nearest, ties to even. *)
Definition float64_of_int (i : Z) : float64 :=
  SF2Prim (binary_normalize prec emax i 0 false).

(** [strconv.FormatBool]. *)
Definition FormatBool (b : bool) : string := if b then "true" else "false".

(** ** k8s.io/apimachinery/pkg/apis/meta/v1 *)
Module metav1.

(** [time.Time] as the pair the standard library compares and converts:
    seconds since January 1, year 1 00:00:00 UTC, and nanoseconds. *)
Record Time := { sec : Z; nsec : Z }.

Definition unixToInternal : Z := 62135596800.

(** [Time.IsZero]: the zero time instant. *)
Definition IsZero (t : Time) : bool := (sec t =? 0)%Z && (nsec t =? 0)%Z.

(** [Time.Unix]: seconds since January 1, 1970 UTC. *)
Definition Unix (t : Time) : Z := (sec t - unixToInternal)%Z.

Record OwnerReference := {
  Kind : string;
  ownerName : string;            (* OwnerReference.Name *)
  Controller : option bool       (* *bool *)
}.

(** The fields of [ObjectMeta] that the collectors read. *)
Record ObjectMeta := {
  Name : string;
  Namespace : string;
  UID : string;
  CreationTimestamp : Time;
  DeletionTimestamp : option Time;    (* *Time *)
  Labels : gmap string string;
  Annotations : gmap string string;
  OwnerReferences : list OwnerReference
}.

(** [GetControllerOf]: the first owner reference whose [Controller]
    pointer is set and true, [nil] when there is none. *)
Definition GetControllerOf (o : ObjectMeta) : option OwnerReference :=
  List.find (fun ref => match Controller ref with
                        | Some b => b
                        | None => false
                        end) (OwnerReferences o).

End metav1.

(** ** k8s.io/api/core/v1 *)
Module v1.

(** [PodPhase] *)
Definition PodPending : string := "Pending".
Definition PodRunning : string := "Running".
Definition PodSucceeded : string := "Succeeded".
Definition PodFailed : string := "Failed".
Definition PodUnknown : string := "Unknown".

(** [PodConditionType] *)
Definition PodScheduled : string := "PodScheduled".
Definition PodReady : string := "Ready".

(** [ConditionStatus] *)
Definition ConditionTrue : string := "True".
Definition ConditionFalse : string := "False".
Definition ConditionUnknown : string := "Unknown".

Record PodCondition := {
  Type_ : string;                (* PodCondition.Type *)
  condStatus : string            (* PodCondition.Status *)
}.

Record ContainerStateWaiting := { waitingReason_ : string }.       (* .Reason *)
Record ContainerStateTerminated := { terminatedReason : string }.  (* .Reason *)

Record ContainerState := {
  Waiting : option ContainerStateWaiting;          (* *ContainerStateWaiting *)
  Terminated : option ContainerStateTerminated     (* *ContainerStateTerminated *)
}.

Record ContainerStatus := {
  containerName : string;        (* ContainerStatus.Name *)
  State : ContainerState;
  LastTerminationState : ContainerState
}.

Record PodSpec := { NodeName : string }.

Record PodStatus := {
  Phase : string;
  Conditions : list PodCondition;
  Reason : string;
  HostIP : string;
  PodIP : string;
  ContainerStatuses : list ContainerStatus
}.

Record Pod := {
  podMeta : metav1.ObjectMeta;   (* the embedded ObjectMeta *)
  Spec : PodSpec;
  Status : PodStatus
}.

Record Namespace := { nsMeta : metav1.ObjectMeta }.

End v1.

(** ** k8s.io/api/extensions/v1beta1 *)
Module v1beta1.

Record DeploymentSpec := { specReplicas : option Z }.   (* Spec.Replicas *int32 *)

Record DeploymentStatus := {
  Replicas : Z;
  AvailableReplicas : Z;
  UnavailableReplicas : Z
}.

Record Deployment := {
  depMeta : metav1.ObjectMeta;
  Spec : DeploymentSpec;
  Status : DeploymentStatus
}.

End v1beta1.

(** [k8s.io/kubernetes/pkg/util/node]: the reason set on the pods of a
    node that became unreachable. *)
Module node.
Definition NodeUnreachablePodReason : string := "NodeLost".
End node.

(** What an [interface{}] handed to a generator may hold. *)
Inductive Object :=
| PodObj (p : v1.Pod)
| DeploymentObj (d : v1beta1.Deployment)
| NamespaceObj (n : v1.Namespace).

(** ** The store *)

(** A [[]string] header: first cell, length, capacity. *)
Record Slice := mkSlice { s_ptr : nat; s_len : nat; s_cap : nat }.

(** The zero value of a slice. *)
Definition nilSlice : Slice := mkSlice 0 0 0.

(** ** k8s.io/kube-state-metrics/pkg/metrics *)
Module metrics.

Record Metric := {
  Name : string;
  LabelKeys : Slice;
  LabelValues : Slice;
  Value : float64
}.

(** [Family] is [[]*Metric]: the addresses of the metric cells.  Every
    family is built by [append] from an empty literal inside one call and
    its array is never shared or rewritten, so it is kept as a list; what
    is shared and rewritten, the cells and the string arrays, is in the
    store. *)
Definition Family := list nat.

Inductive MetricType := MetricTypeGauge | MetricTypeCounter.

End metrics.

(** String cells are the backing arrays of all string slices, metric
    cells are the [Metric] structs; an address is an index. *)
Record heap := mkHeap {
  strs : list string;
  mets : list metrics.Metric
}.

(** ** Computations: state passing with panics *)

Inductive result (A : Type) :=
| Ok (a : A)
| Panic (msg : string).
Arguments Ok {A} a.
Arguments Panic {A} msg.

Definition M (A : Type) : Type := heap -> result (A * heap).

Definition ret {A} (a : A) : M A := fun h => Ok (a, h).

Definition bind {A B} (m : M A) (k : A -> M B) : M B :=
  fun h => match m h with
           | Ok (a, h') => k a h'
           | Panic msg => Panic msg
           end.

Definition panic {A} (msg : string) : M A := fun _ => Panic msg.

Notation "'do' x <- m ; k" := (bind m (fun x => k))
  (at level 10, x name, m at level 100, k at level 200).
Notation "'do' ' p <- m ; k" := (bind m (fun p => k))
  (at level 10, p strict pattern, m at level 100, k at level 200).

(** [for _, x := range l { acc = body x acc }], with the variables the
    loop assigns threaded through as [acc]. *)
Fixpoint forRange {A S} (l : list A) (body : A -> S -> M S) (acc : S) : M S :=
  match l with
  | [] => ret acc
  | x :: l' => do acc' <- body x acc; forRange l' body acc'
  end.

(** The elements of a slice, when it lies inside the store. *)
Definition elems (h : heap) (s : Slice) : option (list string) :=
  if decide (s_ptr s + s_len s <= length (strs h))
  then Some (take (s_len s) (drop (s_ptr s) (strs h)))
  else None.

(** Reading a whole slice (for [range s] and [s...]). *)
Definition readSlice (s : Slice) : M (list string) :=
  fun h => match elems h s with
           | Some l => Ok (l, h)
           | None => Panic "index out of range"
           end.

(** A slice literal [[]string{...}]: a new array, full to capacity. *)
Definition newStrings (l : list string) : M Slice :=
  fun h => Ok (mkSlice (length (strs h)) (length l) (length l),
               mkHeap (strs h ++ l) (mets h)).

(** [&metrics.Metric{...}]: a new metric cell. *)
Definition newMetric (m : metrics.Metric) : M nat :=
  fun h => Ok (length (mets h), mkHeap (strs h) (mets h ++ [m])).

(** [*p] *)
Definition getMetric (p : nat) : M metrics.Metric :=
  fun h => match mets h !! p with
           | Some m => Ok (m, h)
           | None => Panic "invalid memory address or nil pointer dereference"
           end.

(** [*p = m] *)
Definition setMetric (p : nat) (m : metrics.Metric) : M unit :=
  fun h => match mets h !! p with
           | Some _ => Ok (tt, mkHeap (strs h) (<[p:=m]> (mets h)))
           | None => Panic "invalid memory address or nil pointer dereference"
           end.

(** Field reads and writes through a [*Metric]. *)
Definition getLabelKeys (p : nat) : M Slice :=
  do m <- getMetric p; ret (metrics.LabelKeys m).

Definition getLabelValues (p : nat) : M Slice :=
  do m <- getMetric p; ret (metrics.LabelValues m).

Definition setName (p : nat) (n : string) : M unit :=
  do m <- getMetric p;
  setMetric p {| metrics.Name := n;
                 metrics.LabelKeys := metrics.LabelKeys m;
                 metrics.LabelValues := metrics.LabelValues m;
                 metrics.Value := metrics.Value m |}.

Definition setLabelKeys (p : nat) (s : Slice) : M unit :=
  do m <- getMetric p;
  setMetric p {| metrics.Name := metrics.Name m;
                 metrics.LabelKeys := s;
                 metrics.LabelValues := metrics.LabelValues m;
                 metrics.Value := metrics.Value m |}.

Definition setLabelValues (p : nat) (s : Slice) : M unit :=
  do m <- getMetric p;
  setMetric p {| metrics.Name := metrics.Name m;
                 metrics.LabelKeys := metrics.LabelKeys m;
                 metrics.LabelValues := s;
                 metrics.Value := metrics.Value m |}.

(** [metrics.FamilyGenerator] *)
Record FamilyGenerator := {
  genName : string;
  genType : metrics.MetricType;
  genHelp : string;
  GenerateFunc : Object -> M metrics.Family
}.

(** ** What a scrape reads back *)

(** A sample as it is serialised: the metric cell with its two label
    slices read out of the store. *)
Record Sample := mkSample {
  sName : string;
  sKeys : list string;
  sValues : list string;
  sValue : float64
}.

Definition loadSample (h : heap) (p : nat) : option Sample :=
  m ← mets h !! p;
  ks ← elems h (metrics.LabelKeys m);
  vs ← elems h (metrics.LabelValues m);
  Some (mkSample (metrics.Name m) ks vs (metrics.Value m)).

Definition loadFamily (h : heap) (f : metrics.Family) : option (list Sample) :=
  mapM (loadSample h) f.

(** ** Package-level variables *)

(** The string cells the package's slice literals occupy once the
    package is initialised. *)
Definition init_strs : list string :=
  [ "namespace"; "pod";
    "ContainerCreating"; "CrashLoopBackOff"; "CreateContainerConfigError";
    "ErrImagePull"; "ImagePullBackOff";
    "OOMKilled"; "Completed"; "Error"; "ContainerCannotRun";
    "namespace"; "deployment";
    "namespace";
    "namespace" ].

Definition init_heap : heap := mkHeap init_strs [].

Definition descPodLabelsDefaultLabels : Slice := mkSlice 0 2 2.
Definition containerWaitingReasons : Slice := mkSlice 2 5 5.
Definition containerTerminatedReasons : Slice := mkSlice 7 4 4.
Definition descDeploymentLabelsDefaultLabels : Slice := mkSlice 11 2 2.
Definition descNamespaceLabelsDefaultLabels : Slice := mkSlice 13 1 1.
Definition descNamespaceAnnotationsDefaultLabels : Slice := mkSlice 14 1 1.

Definition descDeploymentLabelsName : string := "kube_deployment_labels".
Definition descDeploymentLabelsHelp : string :=
  "Kubernetes labels converted to Prometheus labels.".
Definition descNamespaceLabelsName : string := "kube_namespace_labels".
Definition descNamespaceLabelsHelp : string :=
  "Kubernetes labels converted to Prometheus labels.".
Definition descNamespaceAnnotationsName : string := "kube_namespace_annotations".
Definition descNamespaceAnnotationsHelp : string :=
  "Kubernetes annotations converted to Prometheus labels.".

(** The package-level slices still hold what they were initialised with. *)
Definition heap_ok (h : heap) : Prop := init_strs `prefix_of` strs h.

(** Every cell of [h] is in [h'] with the same content. *)
Definition extends (h h' : heap) : Prop :=
  strs h `prefix_of` strs h' /\ mets h `prefix_of` mets h'.

(** ** Helpers of the package *)

(** Modelled from the spec: [boolFloat64] lives in the package's utility
    file, which is not among the sources; a predicate is "valued 1.0 for
    the matching state and 0.0 otherwise". *)
Definition boolFloat64 (b : bool) : float64 :=
  if b then 1%float else 0%float.

(** Modelled from the spec: [addConditionMetrics] lives in the package's
    utility file, which is not among the sources; "a condition with value
    in {True, False, Unknown} is encoded as three same-named Metrics
    sharing one extra label naming the state (true/false/unknown), each
    valued 1.0 for the matching state and 0.0 otherwise".  The caller sets
    the name and the label key. *)
Definition addConditionMetrics (cs : string) : M (list nat) :=
  do vt <- newStrings ["true"];
  do mt <- newMetric {| metrics.Name := "";
                        metrics.LabelKeys := nilSlice;
                        metrics.LabelValues := vt;
                        metrics.Value := boolFloat64 (String.eqb cs v1.ConditionTrue) |};
  do vf <- newStrings ["false"];
  do mf <- newMetric {| metrics.Name := "";
                        metrics.LabelKeys := nilSlice;
                        metrics.LabelValues := vf;
                        metrics.Value := boolFloat64 (String.eqb cs v1.ConditionFalse) |};
  do vu <- newStrings ["unknown"];
  do mu <- newMetric {| metrics.Name := "";
                        metrics.LabelKeys := nilSlice;
                        metrics.LabelValues := vu;
                        metrics.Value := boolFloat64 (String.eqb cs v1.ConditionUnknown) |};
  ret [mt; mf; mu].

Definition waitingReason (cs : v1.ContainerStatus) (reason : string) : bool :=
  match v1.Waiting (v1.State cs) with
  | None => false
  | Some w => String.eqb (v1.waitingReason_ w) reason
  end.

Definition terminationReason (cs : v1.ContainerStatus) (reason : string) : bool :=
  match v1.Terminated (v1.State cs) with
  | None => false
  | Some t => String.eqb (v1.terminatedReason t) reason
  end.

Definition lastTerminationReason (cs : v1.ContainerStatus) (reason : string) : bool :=
  match v1.Terminated (v1.LastTerminationState cs) with
  | None => false
  | Some t => String.eqb (v1.terminatedReason t) reason
  end.

Section Collectors.

(** The spare capacity the runtime adds when [append] has to move a slice
    of capacity [oldcap] to a new array for [need] elements; the language
    only promises an array that is large enough. *)
Variable slack : nat -> nat -> nat.

(** Modelled from the spec: [kubeLabelsToPrometheusLabels] and
    [kubeAnnotationsToPrometheusAnnotations] live in the package's utility
    file, which is not among the sources, and the spec leaves the
    per-kind field mappings open.  They are taken as parameters: any
    function from the object's map to the label keys and label values it
    returns, in two new slices. *)
Variable kubeLabelsToPrometheusLabels :
  gmap string string -> list string * list string.
Variable kubeAnnotationsToPrometheusAnnotations :
  gmap string string -> list string * list string.

(** [append(s, xs...)] on strings: in place when [xs] fits the capacity
    of [s], otherwise into a new array that receives the elements of [s]
    followed by [xs]. *)
Definition appendStrings (s : Slice) (xs : list string) : M Slice :=
  fun h =>
    let need := s_len s + length xs in
    if decide (need <= s_cap s) then
      Ok (mkSlice (s_ptr s) need (s_cap s),
          mkHeap (list_inserts (s_ptr s + s_len s) xs (strs h)) (mets h))
    else
      match elems h s with
      | None => Panic "slice bounds out of range"
      | Some old =>
          let cap := need + slack (s_cap s) need in
          Ok (mkSlice (length (strs h)) need cap,
              mkHeap (strs h ++ old ++ xs ++ replicate (cap - need) "") (mets h))
      end.

(** ** pod.go *)

Definition kube_pod_info_func (p : v1.Pod) : M metrics.Family :=
  let createdBy := metav1.GetControllerOf (v1.podMeta p) in
  let createdByKind :=
    match createdBy with
    | Some c => if String.eqb (metav1.Kind c) "" then "<none>" else metav1.Kind c
    | None => "<none>"
    end in
  let createdByName :=
    match createdBy with
    | Some c => if String.eqb (metav1.ownerName c) "" then "<none>" else metav1.ownerName c
    | None => "<none>"
    end in
  do ks <- newStrings ["host_ip"; "pod_ip"; "uid"; "node"; "created_by_kind"; "created_by_name"];
  do vs <- newStrings [v1.HostIP (v1.Status p); v1.PodIP (v1.Status p);
                       metav1.UID (v1.podMeta p); v1.NodeName (v1.Spec p);
                       createdByKind; createdByName];
  do m <- newMetric {| metrics.Name := "kube_pod_info";
                       metrics.LabelKeys := ks;
                       metrics.LabelValues := vs;
                       metrics.Value := 1 |};
  ret [m].

Definition kube_pod_owner_func (p : v1.Pod) : M metrics.Family :=
  do labelKeys <- newStrings ["owner_kind"; "owner_name"; "owner_is_controller"];
  let f : metrics.Family := [] in
  let owners := metav1.OwnerReferences (v1.podMeta p) in
  if Nat.eqb (length owners) 0 then
    do vs <- newStrings ["<none>"; "<none>"; "<none>"];
    do m <- newMetric {| metrics.Name := "kube_pod_owner";
                         metrics.LabelKeys := labelKeys;
                         metrics.LabelValues := vs;
                         metrics.Value := 1 |};
    ret (f ++ [m])
  else
    forRange owners (fun owner f =>
      match metav1.Controller owner with
      | Some c =>
          do vs <- newStrings [metav1.Kind owner; metav1.ownerName owner; FormatBool c];
          do m <- newMetric {| metrics.Name := "kube_pod_owner";
                               metrics.LabelKeys := labelKeys;
                               metrics.LabelValues := vs;
                               metrics.Value := 1 |};
          ret (f ++ [m])
      | None =>
          do vs <- newStrings [metav1.Kind owner; metav1.ownerName owner; "false"];
          do m <- newMetric {| metrics.Name := "kube_pod_owner";
                               metrics.LabelKeys := labelKeys;
                               metrics.LabelValues := vs;
                               metrics.Value := 1 |};
          ret (f ++ [m])
      end) f.

Definition kube_pod_status_phase_func (p : v1.Pod) : M metrics.Family :=
  let f : metrics.Family := [] in
  let phase := v1.Phase (v1.Status p) in
  if String.eqb phase "" then ret f
  else
    let unreachable :=
      bool_decide (metav1.DeletionTimestamp (v1.podMeta p) <> None)
      && String.eqb (v1.Reason (v1.Status p)) node.NodeUnreachablePodReason in
    let phases :=
      [ (String.eqb phase v1.PodPending, v1.PodPending);
        (String.eqb phase v1.PodSucceeded, v1.PodSucceeded);
        (String.eqb phase v1.PodFailed, v1.PodFailed);
        (String.eqb phase v1.PodRunning && negb unreachable, v1.PodRunning);
        (String.eqb phase v1.PodUnknown || unreachable, v1.PodUnknown) ] in
    forRange phases (fun '(v, n) f =>
      do ks <- newStrings ["phase"];
      do vs <- newStrings [n];
      do m <- newMetric {| metrics.Name := "kube_pod_status_phase";
                           metrics.LabelKeys := ks;
                           metrics.LabelValues := vs;
                           metrics.Value := boolFloat64 v |};
      ret (f ++ [m])) f.

Definition kube_pod_status_ready_func (p : v1.Pod) : M metrics.Family :=
  forRange (v1.Conditions (v1.Status p)) (fun c f =>
    if String.eqb (v1.Type_ c) v1.PodReady then
      do ms <- addConditionMetrics (v1.condStatus c);
      forRange ms (fun m f =>
        let metric := m in
        do _ <- setName metric "kube_pod_status_ready";
        do ks <- newStrings ["condition"];
        do _ <- setLabelKeys metric ks;
        ret (f ++ [metric])) f
    else ret f) [].

Definition kube_pod_status_scheduled_func (p : v1.Pod) : M metrics.Family :=
  forRange (v1.Conditions (v1.Status p)) (fun c f =>
    if String.eqb (v1.Type_ c) v1.PodScheduled then
      do ms <- addConditionMetrics (v1.condStatus c);
      forRange ms (fun m f =>
        let metric := m in
        do _ <- setName metric "kube_pod_status_scheduled";
        do ks <- newStrings ["condition"];
        do _ <- setLabelKeys metric ks;
        ret (f ++ [metric])) f
    else ret f) [].

Definition kube_pod_container_status_waiting_reason_func (p : v1.Pod)
  : M metrics.Family :=
  forRange (v1.ContainerStatuses (v1.Status p)) (fun cs f =>
    do reasons <- readSlice containerWaitingReasons;
    forRange reasons (fun reason f =>
      do ks <- newStrings ["container"; "reason"];
      do vs <- newStrings [v1.containerName cs; reason];
      do m <- newMetric {| metrics.Name := "kube_pod_container_status_waiting_reason";
                           metrics.LabelKeys := ks;
                           metrics.LabelValues := vs;
                           metrics.Value := boolFloat64 (waitingReason cs reason) |};
      ret (f ++ [m])) f) [].

Definition wrapPodFunc (f : v1.Pod -> M metrics.Family) (obj : Object)
  : M metrics.Family :=
  match obj with
  | PodObj pod =>
      do metricFamily <- f pod;
      do _ <- forRange metricFamily (fun m (_ : unit) =>
        do mk <- getLabelKeys m;
        do ks <- readSlice mk;
        do nk <- appendStrings descPodLabelsDefaultLabels ks;
        do _ <- setLabelKeys m nk;
        do dv <- newStrings [metav1.Namespace (v1.podMeta pod);
                             metav1.Name (v1.podMeta pod)];
        do mv <- getLabelValues m;
        do vs <- readSlice mv;
        do nv <- appendStrings dv vs;
        setLabelValues m nv) tt;
      ret metricFamily
  | _ => panic "interface conversion: interface {} is not *v1.Pod"
  end.

Definition podMetricFamilies : list FamilyGenerator :=
  [ {| genName := "kube_pod_info";
       genType := metrics.MetricTypeGauge;
       genHelp := "Information about pod.";
       GenerateFunc := wrapPodFunc kube_pod_info_func |};
    {| genName := "kube_pod_owner";
       genType := metrics.MetricTypeGauge;
       genHelp := "Information about the Pod's owner.";
       GenerateFunc := wrapPodFunc kube_pod_owner_func |};
    {| genName := "kube_pod_status_phase";
       genType := metrics.MetricTypeGauge;
       genHelp := "The pods current phase.";
       GenerateFunc := wrapPodFunc kube_pod_status_phase_func |};
    {| genName := "kube_pod_status_ready";
       genType := metrics.MetricTypeGauge;
       genHelp := "Describes whether the pod is ready to serve requests.";
       GenerateFunc := wrapPodFunc kube_pod_status_ready_func |};
    {| genName := "kube_pod_status_scheduled";
       genType := metrics.MetricTypeGauge;
       genHelp := "Describes the status of the scheduling process for the pod.";
       GenerateFunc := wrapPodFunc kube_pod_status_scheduled_func |};
    {| genName := "kube_pod_container_status_waiting_reason";
       genType := metrics.MetricTypeGauge;
       genHelp := "Describes the reason the container is currently in waiting state.";
       GenerateFunc := wrapPodFunc kube_pod_container_status_waiting_reason_func |} ].

(** ** deployment.go *)

Definition kube_deployment_created_func (d : v1beta1.Deployment) : M metrics.Family :=
  let f : metrics.Family := [] in
  if negb (metav1.IsZero (metav1.CreationTimestamp (v1beta1.depMeta d))) then
    do m <- newMetric {| metrics.Name := "kube_deployment_created";
                         metrics.LabelKeys := nilSlice;
                         metrics.LabelValues := nilSlice;
                         metrics.Value :=
                           float64_of_int
                             (metav1.Unix (metav1.CreationTimestamp (v1beta1.depMeta d))) |};
    ret (f ++ [m])
  else ret f.

Definition kube_deployment_status_replicas_func (d : v1beta1.Deployment)
  : M metrics.Family :=
  do m <- newMetric {| metrics.Name := "kube_deployment_status_replicas";
                       metrics.LabelKeys := nilSlice;
                       metrics.LabelValues := nilSlice;
                       metrics.Value :=
                         float64_of_int (v1beta1.Replicas (v1beta1.Status d)) |};
  ret [m].

Definition kube_deployment_status_replicas_available_func (d : v1beta1.Deployment)
  : M metrics.Family :=
  do m <- newMetric {| metrics.Name := "kube_deployment_status_replicas_available";
                       metrics.LabelKeys := nilSlice;
                       metrics.LabelValues := nilSlice;
                       metrics.Value :=
                         float64_of_int (v1beta1.AvailableReplicas (v1beta1.Status d)) |};
  ret [m].

Definition kube_deployment_status_replicas_unavailable_func (d : v1beta1.Deployment)
  : M metrics.Family :=
  do m <- newMetric {| metrics.Name := "kube_deployment_status_replicas_unavailable";
                       metrics.LabelKeys := nilSlice;
                       metrics.LabelValues := nilSlice;
                       metrics.Value :=
                         float64_of_int (v1beta1.UnavailableReplicas (v1beta1.Status d)) |};
  ret [m].

(** [*d.Spec.Replicas] dereferences the pointer without a nil check. *)
Definition kube_deployment_spec_replicas_func (d : v1beta1.Deployment)
  : M metrics.Family :=
  match v1beta1.specReplicas (v1beta1.Spec d) with
  | None => panic "invalid memory address or nil pointer dereference"
  | Some replicas =>
      do m <- newMetric {| metrics.Name := "kube_deployment_spec_replicas";
                           metrics.LabelKeys := nilSlice;
                           metrics.LabelValues := nilSlice;
                           metrics.Value := float64_of_int replicas |};
      ret [m]
  end.

Definition kube_deployment_labels_func (d : v1beta1.Deployment) : M metrics.Family :=
  let '(keys, values) :=
    kubeLabelsToPrometheusLabels (metav1.Labels (v1beta1.depMeta d)) in
  do labelKeys <- newStrings keys;
  do labelValues <- newStrings values;
  do m <- newMetric {| metrics.Name := descDeploymentLabelsName;
                       metrics.LabelKeys := labelKeys;
                       metrics.LabelValues := labelValues;
                       metrics.Value := 1 |};
  ret [m].

Definition wrapDeploymentFunc (f : v1beta1.Deployment -> M metrics.Family)
  (obj : Object) : M metrics.Family :=
  match obj with
  | DeploymentObj deployment =>
      do metricFamily <- f deployment;
      do _ <- forRange metricFamily (fun m (_ : unit) =>
        do mk <- getLabelKeys m;
        do ks <- readSlice mk;
        do nk <- appendStrings descDeploymentLabelsDefaultLabels ks;
        do _ <- setLabelKeys m nk;
        do dv <- newStrings [metav1.Namespace (v1beta1.depMeta deployment);
                             metav1.Name (v1beta1.depMeta deployment)];
        do mv <- getLabelValues m;
        do vs <- readSlice mv;
        do nv <- appendStrings dv vs;
        setLabelValues m nv) tt;
      ret metricFamily
  | _ => panic "interface conversion: interface {} is not *v1beta1.Deployment"
  end.

Definition deploymentMetricFamilies : list FamilyGenerator :=
  [ {| genName := "kube_deployment_created";
       genType := metrics.MetricTypeGauge;
       genHelp := "Unix creation timestamp";
       GenerateFunc := wrapDeploymentFunc kube_deployment_created_func |};
    {| genName := "kube_deployment_status_replicas";
       genType := metrics.MetricTypeGauge;
       genHelp := "The number of replicas per deployment.";
       GenerateFunc := wrapDeploymentFunc kube_deployment_status_replicas_func |};
    {| genName := "kube_deployment_status_replicas_available";
       genType := metrics.MetricTypeGauge;
       genHelp := "The number of available replicas per deployment.";
       GenerateFunc :=
         wrapDeploymentFunc kube_deployment_status_replicas_available_func |};
    {| genName := "kube_deployment_status_replicas_unavailable";
       genType := metrics.MetricTypeGauge;
       genHelp := "The number of unavailable replicas per deployment.";
       GenerateFunc :=
         wrapDeploymentFunc kube_deployment_status_replicas_unavailable_func |};
    {| genName := "kube_deployment_spec_replicas";
       genType := metrics.MetricTypeGauge;
       genHelp := "Number of desired pods for a deployment.";
       GenerateFunc := wrapDeploymentFunc kube_deployment_spec_replicas_func |};
    {| genName := descDeploymentLabelsName;
       genType := metrics.MetricTypeGauge;
       genHelp := descDeploymentLabelsHelp;
       GenerateFunc := wrapDeploymentFunc kube_deployment_labels_func |} ].

(** ** namespace.go *)

Definition kube_namespace_labels_func (n : v1.Namespace) : M metrics.Family :=
  let '(keys, values) :=
    kubeLabelsToPrometheusLabels (metav1.Labels (v1.nsMeta n)) in
  do labelKeys <- newStrings keys;
  do labelValues <- newStrings values;
  do m <- newMetric {| metrics.Name := descNamespaceLabelsName;
                       metrics.LabelKeys := labelKeys;
                       metrics.LabelValues := labelValues;
                       metrics.Value := 1 |};
  ret [m].

Definition kube_namespace_annotations_func (n : v1.Namespace) : M metrics.Family :=
  let '(keys, values) :=
    kubeAnnotationsToPrometheusAnnotations (metav1.Annotations (v1.nsMeta n)) in
  do annotationKeys <- newStrings keys;
  do annotationValues <- newStrings values;
  do m <- newMetric {| metrics.Name := descNamespaceAnnotationsName;
                       metrics.LabelKeys := annotationKeys;
                       metrics.LabelValues := annotationValues;
                       metrics.Value := 1 |};
  ret [m].

Definition wrapNamespaceFunc (f : v1.Namespace -> M metrics.Family)
  (obj : Object) : M metrics.Family :=
  match obj with
  | NamespaceObj namespace =>
      do metricFamily <- f namespace;
      do _ <- forRange metricFamily (fun m (_ : unit) =>
        do mk <- getLabelKeys m;
        do ks <- readSlice mk;
        do nk <- appendStrings descNamespaceLabelsDefaultLabels ks;
        do _ <- setLabelKeys m nk;
        do dv <- newStrings [metav1.Name (v1.nsMeta namespace)];
        do mv <- getLabelValues m;
        do vs <- readSlice mv;
        do nv <- appendStrings dv vs;
        setLabelValues m nv) tt;
      ret metricFamily
  | _ => panic "interface conversion: interface {} is not *v1.Namespace"
  end.

Definition namespaceMetricFamilies : list FamilyGenerator :=
  [ {| genName := descNamespaceLabelsName;
       genType := metrics.MetricTypeGauge;
       genHelp := descNamespaceLabelsHelp;
       GenerateFunc := wrapNamespaceFunc kube_namespace_labels_func |};
    {| genName := descNamespaceAnnotationsName;
       genType := metrics.MetricTypeGauge;
       genHelp := descNamespaceAnnotationsHelp;
       GenerateFunc := wrapNamespaceFunc kube_namespace_annotations_func |} ].

(** ** Vocabulary of the statements *)

(** The default identity labels put in front of a sample's own labels. *)
Definition withDefaults (keys values : list string) (s : Sample) : Sample :=
  mkSample (sName s) (keys ++ sKeys s) (values ++ sValues s) (sValue s).

(** A sample whose label keys and label values pair up. *)
Definition balanced (s : Sample) : Prop := length (sKeys s) = length (sValues s).

(** [c], run in [h] with the family [f0] built so far, returns [f0]
    followed by the addresses of newly allocated metric cells, which read
    back as [ss]; every cell that [h] had is left as it was. *)
Definition yieldsFrom (f0 : metrics.Family) (c : M metrics.Family)
  (h : heap) (ss : list Sample) : Prop :=
  exists h',
    c h = Ok (f0 ++ seq (length (mets h)) (length ss), h')
    /\ extends h h'
    /\ length (mets h') = length (mets h) + length ss
    /\ loadFamily h' (seq (length (mets h)) (length ss)) = Some ss.

Definition yields (c : M metrics.Family) (h : heap) (ss : list Sample) : Prop :=
  yieldsFrom [] c h ss.

(** [c] returns a family that reads back as [ss]. *)
Definition emits (c : M metrics.Family) (h : heap) (ss : list Sample) : Prop :=
  exists fam h', c h = Ok (fam, h') /\ loadFamily h' fam = Some ss.

(** The body of the loop of [wrapPodFunc], [wrapDeploymentFunc] and
    [wrapNamespaceFunc], with the default keys and values as parameters. *)
Definition prependDefaults (defaults : Slice) (values : list string)
  (m : nat) (_ : unit) : M unit :=
  do mk <- getLabelKeys m;
  do ks <- readSlice mk;
  do nk <- appendStrings defaults ks;
  do _ <- setLabelKeys m nk;
  do dv <- newStrings values;
  do mv <- getLabelValues m;
  do vs <- readSlice mv;
  do nv <- appendStrings dv vs;
  setLabelValues m nv.

(** The functions the wrappers are applied to, in registration order. *)
Definition podFuncs : list (v1.Pod -> M metrics.Family) :=
  [ kube_pod_info_func; kube_pod_owner_func; kube_pod_status_phase_func;
    kube_pod_status_ready_func; kube_pod_status_scheduled_func;
    kube_pod_container_status_waiting_reason_func ].

Definition deploymentFuncs : list (v1beta1.Deployment -> M metrics.Family) :=
  [ kube_deployment_created_func; kube_deployment_status_replicas_func;
    kube_deployment_status_replicas_available_func;
    kube_deployment_status_replicas_unavailable_func;
    kube_deployment_spec_replicas_func; kube_deployment_labels_func ].

Definition namespaceFuncs : list (v1.Namespace -> M metrics.Family) :=
  [ kube_namespace_labels_func; kube_namespace_annotations_func ].

(** The default label values of each kind. *)
Definition podDefaults (p : v1.Pod) : list string :=
  [metav1.Namespace (v1.podMeta p); metav1.Name (v1.podMeta p)].

Definition deploymentDefaults (d : v1beta1.Deployment) : list string :=
  [metav1.Namespace (v1beta1.depMeta d); metav1.Name (v1beta1.depMeta d)].

Definition namespaceDefaults (n : v1.Namespace) : list string :=
  [metav1.Name (v1.nsMeta n)].

(** ** What each function produces, as a function of the object alone

    The generators below are stated to refine these: run in any store in
    which the package-level slices are intact, they allocate cells that
    read back as the list given here. *)

(** The contents of [containerWaitingReasons]. *)
Definition waitingReasons : list string :=
  [ "ContainerCreating"; "CrashLoopBackOff"; "CreateContainerConfigError";
    "ErrImagePull"; "ImagePullBackOff" ].

Definition pod_info_samples (p : v1.Pod) : list Sample :=
  let createdBy := metav1.GetControllerOf (v1.podMeta p) in
  [ mkSample "kube_pod_info"
      ["host_ip"; "pod_ip"; "uid"; "node"; "created_by_kind"; "created_by_name"]
      [ v1.HostIP (v1.Status p); v1.PodIP (v1.Status p);
        metav1.UID (v1.podMeta p); v1.NodeName (v1.Spec p);
        match createdBy with
        | Some c => if String.eqb (metav1.Kind c) "" then "<none>" else metav1.Kind c
        | None => "<none>"
        end;
        match createdBy with
        | Some c => if String.eqb (metav1.ownerName c) "" then "<none>"
                    else metav1.ownerName c
        | None => "<none>"
        end ]
      1 ].

Definition owner_sample (o : metav1.OwnerReference) : Sample :=
  mkSample "kube_pod_owner"
    ["owner_kind"; "owner_name"; "owner_is_controller"]
    [ metav1.Kind o; metav1.ownerName o;
      match metav1.Controller o with
      | Some c => FormatBool c
      | None => "false"
      end ]
    1.

Definition pod_owner_samples (p : v1.Pod) : list Sample :=
  match metav1.OwnerReferences (v1.podMeta p) with
  | [] => [ mkSample "kube_pod_owner"
              ["owner_kind"; "owner_name"; "owner_is_controller"]
              ["<none>"; "<none>"; "<none>"] 1 ]
  | owners => map owner_sample owners
  end.

Definition phase_sample (v : bool) (n : string) : Sample :=
  mkSample "kube_pod_status_phase" ["phase"] [n] (boolFloat64 v).

Definition pod_phase_samples (p : v1.Pod) : list Sample :=
  let phase := v1.Phase (v1.Status p) in
  let unreachable :=
    bool_decide (metav1.DeletionTimestamp (v1.podMeta p) <> None)
    && String.eqb (v1.Reason (v1.Status p)) node.NodeUnreachablePodReason in
  if String.eqb phase "" then []
  else
    [ phase_sample (String.eqb phase v1.PodPending) v1.PodPending;
      phase_sample (String.eqb phase v1.PodSucceeded) v1.PodSucceeded;
      phase_sample (String.eqb phase v1.PodFailed) v1.PodFailed;
      phase_sample (String.eqb phase v1.PodRunning && negb unreachable) v1.PodRunning;
      phase_sample (String.eqb phase v1.PodUnknown || unreachable) v1.PodUnknown ].

(** The three samples of one condition. *)
Definition condition_samples (name status : string) : list Sample :=
  [ mkSample name ["condition"] ["true"]
      (boolFloat64 (String.eqb status v1.ConditionTrue));
    mkSample name ["condition"] ["false"]
      (boolFloat64 (String.eqb status v1.ConditionFalse));
    mkSample name ["condition"] ["unknown"]
      (boolFloat64 (String.eqb status v1.ConditionUnknown)) ].

Definition pod_condition_samples (name type : string) (conds : list v1.PodCondition)
  : list Sample :=
  concat (map (fun c => if String.eqb (v1.Type_ c) type
                        then condition_samples name (v1.condStatus c)
                        else []) conds).

Definition waiting_reason_sample (cs : v1.ContainerStatus) (reason : string) : Sample :=
  mkSample "kube_pod_container_status_waiting_reason"
    ["container"; "reason"] [v1.containerName cs; reason]
    (boolFloat64 (waitingReason cs reason)).

Definition pod_waiting_reason_samples (p : v1.Pod) : list Sample :=
  concat (map (fun cs => map (waiting_reason_sample cs) waitingReasons)
              (v1.ContainerStatuses (v1.Status p))).

Definition deployment_created_samples (d : v1beta1.Deployment) : list Sample :=
  if negb (metav1.IsZero (metav1.CreationTimestamp (v1beta1.depMeta d)))
  then [ mkSample "kube_deployment_created" [] []
           (float64_of_int
              (metav1.Unix (metav1.CreationTimestamp (v1beta1.depMeta d)))) ]
  else [].

Definition labels_sample (name : string) (kv : list string * list string) : Sample :=
  mkSample name (fst kv) (snd kv) 1.

(** The samples of each registered function, in registration order;
    [None] where the function panics. *)
Definition podSamples : list (v1.Pod -> option (list Sample)) :=
  [ fun p => Some (pod_info_samples p);
    fun p => Some (pod_owner_samples p);
    fun p => Some (pod_phase_samples p);
    fun p => Some (pod_condition_samples "kube_pod_status_ready" v1.PodReady
                     (v1.Conditions (v1.Status p)));
    fun p => Some (pod_condition_samples "kube_pod_status_scheduled" v1.PodScheduled
                     (v1.Conditions (v1.Status p)));
    fun p => Some (pod_waiting_reason_samples p) ].

Definition deploymentSamples : list (v1beta1.Deployment -> option (list Sample)) :=
  [ fun d => Some (deployment_created_samples d);
    fun d => Some [ mkSample "kube_deployment_status_replicas" [] []
                      (float64_of_int (v1beta1.Replicas (v1beta1.Status d))) ];
    fun d => Some [ mkSample "kube_deployment_status_replicas_available" [] []
                      (float64_of_int (v1beta1.AvailableReplicas (v1beta1.Status d))) ];
    fun d => Some [ mkSample "kube_deployment_status_replicas_unavailable" [] []
                      (float64_of_int (v1beta1.UnavailableReplicas (v1beta1.Status d))) ];
    fun d => match v1beta1.specReplicas (v1beta1.Spec d) with
             | Some replicas =>
                 Some [ mkSample "kube_deployment_spec_replicas" [] []
                          (float64_of_int replicas) ]
             | None => None
             end;
    fun d => Some [ labels_sample descDeploymentLabelsName
                      (kubeLabelsToPrometheusLabels
                         (metav1.Labels (v1beta1.depMeta d))) ] ].

Definition namespaceSamples : list (v1.Namespace -> option (list Sample)) :=
  [ fun n => Some [ labels_sample descNamespaceLabelsName
                      (kubeLabelsToPrometheusLabels (metav1.Labels (v1.nsMeta n))) ];
    fun n => Some [ labels_sample descNamespaceAnnotationsName
                      (kubeAnnotationsToPrometheusAnnotations
                         (metav1.Annotations (v1.nsMeta n))) ] ].

(** [f] refines [out]: where [out] gives samples, [f] yields them in
    every store with intact package-level slices; where [out] gives
    nothing, [f] panics in every store. *)
Definition refines {A} (f : A -> M metrics.Family) (out : A -> option (list Sample))
  : Prop :=
  forall x,
    match out x with
    | Some ss => forall h, heap_ok h -> yields (f x) h ss
    | None => exists msg, forall h, f x h = Panic msg
    end.

(** The samples of a wrapped function: those of the function with the
    kind's default labels in front; an object of another kind makes the
    type assertion panic. *)
Definition wrapPodSamples (out : v1.Pod -> option (list Sample)) (obj : Object)
  : option (list Sample) :=
  match obj with
  | PodObj p => map (withDefaults ["namespace"; "pod"] (podDefaults p)) <$> out p
  | _ => None
  end.

Definition wrapDeploymentSamples (out : v1beta1.Deployment -> option (list Sample))
  (obj : Object) : option (list Sample) :=
  match obj with
  | DeploymentObj d =>
      map (withDefaults ["namespace"; "deployment"] (deploymentDefaults d)) <$> out d
  | _ => None
  end.

Definition wrapNamespaceSamples (out : v1.Namespace -> option (list Sample))
  (obj : Object) : option (list Sample) :=
  match obj with
  | NamespaceObj n => map (withDefaults ["namespace"] (namespaceDefaults n)) <$> out n
  | _ => None
  end.

(** All registered generators, with the samples each one refines. *)
Definition allMetricFamilies : list FamilyGenerator :=
  podMetricFamilies ++ deploymentMetricFamilies ++ namespaceMetricFamilies.

Definition allSamples : list (Object -> option (list Sample)) :=
  map wrapPodSamples podSamples
  ++ map wrapDeploymentSamples deploymentSamples
  ++ map wrapNamespaceSamples namespaceSamples.

(** The three samples of one condition of pod [p] as the wrapped
    generator gives them, valued [vt], [vf] and [vu]. *)
Definition tristate (p : v1.Pod) (name : string) (vt vf vu : float64) : list Sample :=
  [ mkSample name ["namespace"; "pod"; "condition"]
      [metav1.Namespace (v1.podMeta p); metav1.Name (v1.podMeta p); "true"] vt;
    mkSample name ["namespace"; "pod"; "condition"]
      [metav1.Namespace (v1.podMeta p); metav1.Name (v1.podMeta p); "false"] vf;
    mkSample name ["namespace"; "pod"; "condition"]
      [metav1.Namespace (v1.podMeta p); metav1.Name (v1.podMeta p); "unknown"] vu ].

(** Of [vt], [vf], [vu] the one that matches [status] is 1, the other two
    are 0. *)
Definition one_hot (status : string) (vt vf vu : float64) : Prop :=
  (status = v1.ConditionTrue /\ vt = 1%float /\ vf = 0%float /\ vu = 0%float)
  \/ (status = v1.ConditionFalse /\ vt = 0%float /\ vf = 1%float /\ vu = 0%float)
  \/ (status = v1.ConditionUnknown /\ vt = 0%float /\ vf = 0%float /\ vu = 1%float).

(** ** Objects and parameters to run the generators on *)

Definition exampleSlack (oldcap need : nat) : nat := oldcap.

Definition exampleLabels (m : gmap string string) : list string * list string :=
  (map (fun kv => "label_" +:+ fst kv) (map_to_list m), map snd (map_to_list m)).

Definition exampleMeta (name : string) (deletion : option metav1.Time)
  (owners : list metav1.OwnerReference) : metav1.ObjectMeta :=
  {| metav1.Name := name;
     metav1.Namespace := "default";
     metav1.UID := "0d5d1d2c";
     metav1.CreationTimestamp := {| metav1.sec := 0; metav1.nsec := 0 |};
     metav1.DeletionTimestamp := deletion;
     metav1.Labels := {[ "app" := "web" ]};
     metav1.Annotations := ∅;
     metav1.OwnerReferences := owners |}.

(** A running pod on a lost node, being deleted, owned by a replica set
    (its controller) and by one more object, with one container waiting
    on an image pull and one waiting for a reason outside the list. *)
Definition examplePod : v1.Pod :=
  {| v1.podMeta :=
       exampleMeta "web-0" (Some {| metav1.sec := 63700000000; metav1.nsec := 0 |})
         [ {| metav1.Kind := "ReplicaSet"; metav1.ownerName := "web";
              metav1.Controller := Some true |};
           {| metav1.Kind := "Job"; metav1.ownerName := "backup";
              metav1.Controller := None |} ];
     v1.Spec := {| v1.NodeName := "node-1" |};
     v1.Status :=
       {| v1.Phase := "Running";
          v1.Conditions :=
            [ {| v1.Type_ := "Initialized"; v1.condStatus := "True" |};
              {| v1.Type_ := "Ready"; v1.condStatus := "False" |};
              {| v1.Type_ := "PodScheduled"; v1.condStatus := "True" |} ];
          v1.Reason := "NodeLost";
          v1.HostIP := "10.0.0.1";
          v1.PodIP := "172.16.0.5";
          v1.ContainerStatuses :=
            [ {| v1.containerName := "app";
                 v1.State := {| v1.Waiting := Some {| v1.waitingReason_ := "ErrImagePull" |};
                                v1.Terminated := None |};
                 v1.LastTerminationState := {| v1.Waiting := None; v1.Terminated := None |} |};
              {| v1.containerName := "sidecar";
                 v1.State := {| v1.Waiting := Some {| v1.waitingReason_ := "PodInitializing" |};
                                v1.Terminated := None |};
                 v1.LastTerminationState := {| v1.Waiting := None; v1.Terminated := None |} |} ] |} |}.

(** A pod without owners and without a phase. *)
Definition examplePendingPod : v1.Pod :=
  {| v1.podMeta := exampleMeta "orphan" None [];
     v1.Spec := {| v1.NodeName := "" |};
     v1.Status := {| v1.Phase := ""; v1.Conditions := []; v1.Reason := "";
                     v1.HostIP := ""; v1.PodIP := ""; v1.ContainerStatuses := [] |} |}.

(** A deployment with the zero creation timestamp and no replica count. *)
Definition exampleDeployment : v1beta1.Deployment :=
  {| v1beta1.depMeta := exampleMeta "web" None [];
     v1beta1.Spec := {| v1beta1.specReplicas := None |};
     v1beta1.Status := {| v1beta1.Replicas := 3; v1beta1.AvailableReplicas := 2;
                          v1beta1.UnavailableReplicas := 1 |} |}.

Definition exampleNamespace : v1.Namespace :=
  {| v1.nsMeta := exampleMeta "default" None [] |}.

(** A pod that ran to completion. *)
Definition exampleSucceededPod : v1.Pod :=
  {| v1.podMeta := exampleMeta "job-0" None [];
     v1.Spec := {| v1.NodeName := "node-2" |};
     v1.Status := {| v1.Phase := "Succeeded"; v1.Conditions := []; v1.Reason := "";
                     v1.HostIP := "10.0.0.2"; v1.PodIP := "172.16.0.9";
                     v1.ContainerStatuses := [] |} |}.

(** A failed pod on a lost node, being deleted. *)
Definition exampleFailedPod : v1.Pod :=
  {| v1.podMeta :=
       exampleMeta "job-1" (Some {| metav1.sec := 63700000000; metav1.nsec := 0 |}) [];
     v1.Spec := {| v1.NodeName := "node-1" |};
     v1.Status := {| v1.Phase := "Failed"; v1.Conditions := []; v1.Reason := "NodeLost";
                     v1.HostIP := "10.0.0.1"; v1.PodIP := "172.16.0.7";
                     v1.ContainerStatuses := [] |} |}.

(** A deployment created on January 1, 2021 00:00:00 UTC that asks for
    three replicas. *)
Definition exampleCreatedDeployment : v1beta1.Deployment :=
  {| v1beta1.depMeta :=
       {| metav1.Name := "api";
          metav1.Namespace := "default";
          metav1.UID := "7c1e0a55";
          metav1.CreationTimestamp := {| metav1.sec := 63745056000; metav1.nsec := 0 |};
          metav1.DeletionTimestamp := None;
          metav1.Labels := {[ "app" := "api" ]};
          metav1.Annotations := ∅;
          metav1.OwnerReferences := [] |};
     v1beta1.Spec := {| v1beta1.specReplicas := Some 3%Z |};
     v1beta1.Status := {| v1beta1.Replicas := 3; v1beta1.AvailableReplicas := 2;
                          v1beta1.UnavailableReplicas := 1 |} |}.

(** A function that returns the cell of [kube_pod_info] twice. *)
Definition exampleTwice (p : v1.Pod) : M metrics.Family :=
  do fam <- kube_pod_info_func p; ret (fam ++ fam).



(** [c], run in [h], rewrites the metric cell [m] in place so that it
    reads back as [s'], and returns [r]; no other metric cell changes and
    no string cell is overwritten. *)
Definition rewrites {S} (c : M S) (h : heap) (m : nat) (s' : Sample) (r : S) : Prop :=
  exists h',
    c h = Ok (r, h')
    /\ strs h `prefix_of` strs h'
    /\ length (mets h') = length (mets h)
    /\ (forall q, q <> m -> mets h' !! q = mets h !! q)
    /\ loadSample h' m = Some s'.

(** ** The store: reading is stable when the store grows *)

Lemma extends_refl h : extends h h.
Proof. split; reflexivity. Qed.

Lemma extends_trans h1 h2 h3 : extends h1 h2 -> extends h2 h3 -> extends h1 h3.
Proof. intros [? ?] [? ?]. split; etrans; eassumption. Qed.

Lemma heap_ok_init : heap_ok init_heap.
Proof. unfold heap_ok. reflexivity. Qed.

Lemma heap_ok_extends h h' : heap_ok h -> extends h h' -> heap_ok h'.
Proof. unfold heap_ok. intros ? [? _]. etrans; eassumption. Qed.

Lemma elems_length h s l : elems h s = Some l -> length l = s_len s.
Proof.
  unfold elems. case_decide; [|discriminate].
  intros [= <-]. rewrite length_take, length_drop. lia.
Qed.

Lemma elems_grow S k ms ms' s l :
  elems (mkHeap S ms) s = Some l -> elems (mkHeap (S ++ k) ms') s = Some l.
Proof.
  unfold elems; simpl. case_decide as Hb; [|discriminate].
  intros [= <-]. rewrite decide_True by (rewrite length_app; lia).
  f_equal. rewrite drop_app_le by lia.
  apply take_app_le. rewrite length_drop. lia.
Qed.

Lemma elems_mono h h' s l :
  elems h s = Some l -> strs h `prefix_of` strs h' -> elems h' s = Some l.
Proof.
  destruct h as [S ms], h' as [S' ms']. simpl. intros He [k ->].
  eapply elems_grow. eassumption.
Qed.

(** A slice over newly allocated cells reads back what was stored. *)
Lemma elems_alloc S l k ms c :
  elems (mkHeap (S ++ l ++ k) ms) (mkSlice (length S) (length l) c) = Some l.
Proof.
  unfold elems; simpl.
  case_decide as Hd; [|exfalso; apply Hd; rewrite !length_app; lia].
  f_equal. rewrite drop_app_length. apply take_app_length.
Qed.

Lemma elems_nil h : elems h nilSlice = Some [].
Proof. unfold elems. rewrite decide_True by (simpl; lia). reflexivity. Qed.

Lemma elems_global h s l :
  heap_ok h -> elems init_heap s = Some l -> elems h s = Some l.
Proof. intros Hok He. eapply elems_mono; eassumption. Qed.

Lemma loadSample_frame h h' p s :
  loadSample h p = Some s ->
  strs h `prefix_of` strs h' ->
  mets h' !! p = mets h !! p ->
  loadSample h' p = Some s.
Proof.
  unfold loadSample. intros Hl Hs ->.
  destruct (mets h !! p) as [m|]; simpl in *; [|discriminate].
  destruct (elems h (metrics.LabelKeys m)) as [ks|] eqn:Hk; simpl in *; [|discriminate].
  destruct (elems h (metrics.LabelValues m)) as [vs|] eqn:Hv; simpl in *; [|discriminate].
  rewrite (elems_mono _ _ _ _ Hk Hs), (elems_mono _ _ _ _ Hv Hs). assumption.
Qed.

Lemma loadSample_mono h h' p s :
  loadSample h p = Some s -> extends h h' -> loadSample h' p = Some s.
Proof.
  intros Hl [Hs Hm]. eapply loadSample_frame; [eassumption..|].
  unfold loadSample in Hl.
  destruct (mets h !! p) as [m|] eqn:Hp; simpl in Hl; [|discriminate].
  eapply prefix_lookup_Some; eassumption.
Qed.

Lemma loadFamily_mono h h' f ss :
  loadFamily h f = Some ss -> extends h h' -> loadFamily h' f = Some ss.
Proof.
  unfold loadFamily. rewrite !mapM_Some. intros HF He.
  eapply Forall2_impl; [eassumption|]. simpl. intros p s Hp.
  eapply loadSample_mono; eassumption.
Qed.

Lemma loadFamily_app h f1 f2 ss1 ss2 :
  loadFamily h f1 = Some ss1 -> loadFamily h f2 = Some ss2 ->
  loadFamily h (f1 ++ f2) = Some (ss1 ++ ss2).
Proof. unfold loadFamily. rewrite !mapM_Some. apply Forall2_app. Qed.

(** Reading a metric cell that was just allocated. *)
Lemma loadSample_new h m ks vs :
  elems h (metrics.LabelKeys m) = Some ks ->
  elems h (metrics.LabelValues m) = Some vs ->
  loadSample (mkHeap (strs h) (mets h ++ [m])) (length (mets h))
  = Some (mkSample (metrics.Name m) ks vs (metrics.Value m)).
Proof.
  intros Hk Hv. unfold loadSample; simpl.
  rewrite list_lookup_middle by reflexivity. simpl.
  destruct h as [S ms]; simpl in *.
  unfold elems in *; simpl in *. rewrite Hk; simpl. rewrite Hv; simpl. reflexivity.
Qed.

(** ** Loops that allocate *)

Lemma yieldsFrom_ret f0 h : yieldsFrom f0 (ret f0) h [].
Proof.
  exists h. simpl. rewrite app_nil_r, Nat.add_0_r.
  split; [reflexivity|]. split; [apply extends_refl|]. split; reflexivity.
Qed.

(** Sequencing two allocating steps. *)
Lemma yieldsFrom_bind f0 (c : M metrics.Family) (k : metrics.Family -> M metrics.Family)
  h ss1 ss2 :
  yieldsFrom f0 c h ss1 ->
  (forall f1 h1, extends h h1 -> yieldsFrom f1 (k f1) h1 ss2) ->
  yieldsFrom f0 (do f1 <- c; k f1) h (ss1 ++ ss2).
Proof.
  intros (h1 & Hc & He1 & Hn1 & Hl1) Hk.
  destruct (Hk (f0 ++ seq (length (mets h)) (length ss1)) h1 He1)
    as (h2 & Hk2 & He2 & Hn2 & Hl2).
  exists h2. unfold bind. rewrite Hc, Hk2.
  rewrite length_app, seq_app, Hn1, app_assoc.
  split; [reflexivity|]. split; [|split].
  - eapply extends_trans; eassumption.
  - lia.
  - rewrite Hn1 in Hl2. apply loadFamily_app; [|assumption].
    eapply loadFamily_mono; eassumption.
Qed.

Lemma yieldsFrom_forRange {A} (P : heap -> Prop) (body : A -> metrics.Family -> M metrics.Family)
  (S : A -> list Sample) (l : list A) :
  (forall h h', P h -> extends h h' -> P h') ->
  (forall x f h, P h -> yieldsFrom f (body x f) h (S x)) ->
  forall f h, P h -> yieldsFrom f (forRange l body f) h (concat (map S l)).
Proof.
  intros HP Hbody. induction l as [|x l IH]; intros f h Hh; simpl.
  - apply yieldsFrom_ret.
  - apply yieldsFrom_bind; [apply Hbody; assumption|].
    intros f1 h1 He. apply IH. eapply HP; eassumption.
Qed.

(** The recurring step: a metric literal whose label values are a slice
    literal, appended to the family. *)
Lemma yieldsFrom_literal f0 h name ks keys values value :
  elems h ks = Some keys ->
  yieldsFrom f0
    (do vs <- newStrings values;
     do m <- newMetric {| metrics.Name := name; metrics.LabelKeys := ks;
                          metrics.LabelValues := vs; metrics.Value := value |};
     ret (f0 ++ [m])) h [mkSample name keys values value].
Proof.
  intros Hk. eexists. unfold bind, newStrings, newMetric, ret; simpl.
  split; [reflexivity|]. split; [|split].
  - split; simpl; apply prefix_app_r; reflexivity.
  - simpl. rewrite length_app. reflexivity.
  - unfold loadFamily. simpl.
    pose proof (loadSample_new (mkHeap (strs h ++ values) (mets h))
      {| metrics.Name := name; metrics.LabelKeys := ks;
         metrics.LabelValues := mkSlice (length (strs h)) (length values) (length values);
         metrics.Value := value |} keys values) as Hn.
    simpl in Hn. rewrite Hn; [reflexivity| |].
    + destruct h. eapply elems_grow. eassumption.
    + rewrite <- (app_nil_r values) at 1. apply elems_alloc.
Qed.

(** The same with the label keys a slice literal too. *)
Lemma yieldsFrom_literal2 f0 h name keys values value :
  yieldsFrom f0
    (do ks <- newStrings keys;
     do vs <- newStrings values;
     do m <- newMetric {| metrics.Name := name; metrics.LabelKeys := ks;
                          metrics.LabelValues := vs; metrics.Value := value |};
     ret (f0 ++ [m])) h [mkSample name keys values value].
Proof.
  pose proof (yieldsFrom_literal f0 (mkHeap (strs h ++ keys) (mets h)) name
    (mkSlice (length (strs h)) (length keys) (length keys)) keys values value) as H.
  destruct H as (h' & Hc & [He1 He2] & Hn & Hl).
  { rewrite <- (app_nil_r keys) at 1. apply elems_alloc. }
  exists h'. unfold bind at 1. unfold newStrings at 1. simpl in *.
  split; [exact Hc|]. split; [|split; assumption].
  split; [|assumption]. etrans; [|eassumption]. apply prefix_app_r. reflexivity.
Qed.

(** A metric literal without labels. *)
Lemma yieldsFrom_plain f0 h name value :
  yieldsFrom f0
    (do m <- newMetric {| metrics.Name := name; metrics.LabelKeys := nilSlice;
                          metrics.LabelValues := nilSlice; metrics.Value := value |};
     ret (f0 ++ [m])) h [mkSample name [] [] value].
Proof.
  eexists. unfold bind, newMetric, ret; simpl.
  split; [reflexivity|]. split; [|split].
  - split; simpl; [reflexivity|apply prefix_app_r; reflexivity].
  - simpl. rewrite length_app. reflexivity.
  - unfold loadFamily. simpl.
    pose proof (loadSample_new h
      {| metrics.Name := name; metrics.LabelKeys := nilSlice;
         metrics.LabelValues := nilSlice; metrics.Value := value |} [] []) as Hn.
    simpl in Hn. rewrite Hn by apply elems_nil. reflexivity.
Qed.

(** ** The wrappers *)

Lemma Forall2_impl_elem {A B} (P Q : A -> B -> Prop) l k :
  Forall2 P l k -> (forall x y, x ∈ l -> P x y -> Q x y) -> Forall2 Q l k.
Proof.
  induction 1 as [|x y l k Hxy HF IH]; intros HPQ; constructor.
  - apply HPQ; [left|assumption].
  - apply IH. intros x' y' Hin. apply HPQ. right. assumption.
Qed.

Lemma bind_ok {A B} (m : M A) (k : A -> M B) h a h' :
  m h = Ok (a, h') -> bind m k h = k a h'.
Proof. unfold bind. intros ->. reflexivity. Qed.

Lemma getLabelKeys_ok h p m :
  mets h !! p = Some m -> getLabelKeys p h = Ok (metrics.LabelKeys m, h).
Proof. unfold getLabelKeys, bind, getMetric, ret. intros ->. reflexivity. Qed.

Lemma getLabelValues_ok h p m :
  mets h !! p = Some m -> getLabelValues p h = Ok (metrics.LabelValues m, h).
Proof. unfold getLabelValues, bind, getMetric, ret. intros ->. reflexivity. Qed.

Lemma readSlice_ok h s l : elems h s = Some l -> readSlice s h = Ok (l, h).
Proof. unfold readSlice. intros ->. reflexivity. Qed.

Lemma setName_ok h p m n :
  mets h !! p = Some m ->
  setName p n h
  = Ok (tt, mkHeap (strs h)
              (<[p := {| metrics.Name := n;
                         metrics.LabelKeys := metrics.LabelKeys m;
                         metrics.LabelValues := metrics.LabelValues m;
                         metrics.Value := metrics.Value m |}]> (mets h))).
Proof.
  intros H. unfold setName, bind, getMetric, setMetric.
  rewrite H. simpl. rewrite H. reflexivity.
Qed.

Lemma setLabelKeys_ok h p m s :
  mets h !! p = Some m ->
  setLabelKeys p s h
  = Ok (tt, mkHeap (strs h)
              (<[p := {| metrics.Name := metrics.Name m;
                         metrics.LabelKeys := s;
                         metrics.LabelValues := metrics.LabelValues m;
                         metrics.Value := metrics.Value m |}]> (mets h))).
Proof.
  intros H. unfold setLabelKeys, bind, getMetric, setMetric.
  rewrite H. simpl. rewrite H. reflexivity.
Qed.

Lemma setLabelValues_ok h p m s :
  mets h !! p = Some m ->
  setLabelValues p s h
  = Ok (tt, mkHeap (strs h)
              (<[p := {| metrics.Name := metrics.Name m;
                         metrics.LabelKeys := metrics.LabelKeys m;
                         metrics.LabelValues := s;
                         metrics.Value := metrics.Value m |}]> (mets h))).
Proof.
  intros H. unfold setLabelValues, bind, getMetric, setMetric.
  rewrite H. simpl. rewrite H. reflexivity.
Qed.

(** Appending to a slice that is full to capacity never writes into its
    array: nothing is appended and the slice comes back as it is, or the
    elements move to a new array. *)
Lemma appendStrings_full s xs h old :
  s_len s = s_cap s ->
  elems h s = Some old ->
  exists s' h',
    appendStrings s xs h = Ok (s', h')
    /\ strs h `prefix_of` strs h'
    /\ mets h' = mets h
    /\ elems h' s' = Some (old ++ xs).
Proof.
  intros Hfull Hold. unfold appendStrings. cbv zeta.
  destruct xs as [|x xs].
  - rewrite decide_True by (simpl; lia).
    eexists _, _. split; [reflexivity|]. simpl.
    split; [reflexivity|]. split; [reflexivity|].
    rewrite app_nil_r, Nat.add_0_r, <- Hfull.
    destruct s, h; exact Hold.
  - rewrite decide_False by (simpl; lia). rewrite Hold.
    eexists _, _. split; [reflexivity|]. cbn [strs mets].
    split; [apply prefix_app_r; reflexivity|]. split; [reflexivity|].
    pose proof (elems_length _ _ _ Hold) as Hlen.
    rewrite <- Hlen, <- length_app, (app_assoc old). apply elems_alloc.
Qed.

Lemma prependDefaults_spec defaults values D h m s :
  s_len defaults = s_cap defaults ->
  elems h defaults = Some D ->
  loadSample h m = Some s ->
  rewrites (prependDefaults defaults values m tt) h m (withDefaults D values s) tt.
Proof.
  intros Hfull HD Hs. unfold rewrites. unfold loadSample in Hs.
  destruct (mets h !! m) as [cell|] eqn:Hm; simpl in Hs; [|discriminate].
  destruct (elems h (metrics.LabelKeys cell)) as [ks|] eqn:Hk; simpl in Hs; [|discriminate].
  destruct (elems h (metrics.LabelValues cell)) as [vs|] eqn:Hv; simpl in Hs; [|discriminate].
  injection Hs as <-.
  pose proof (lookup_lt_Some _ _ _ Hm) as Hlt.
  destruct (appendStrings_full defaults ks h D Hfull HD)
    as (nk & h1 & Ha1 & Hp1 & Hm1 & Hnk).
  set (cell1 := {| metrics.Name := metrics.Name cell;
                   metrics.LabelKeys := nk;
                   metrics.LabelValues := metrics.LabelValues cell;
                   metrics.Value := metrics.Value cell |}).
  set (h2 := mkHeap (strs h1) (<[m := cell1]> (mets h1))).
  set (dv := mkSlice (length (strs h1)) (length values) (length values)).
  set (h3 := mkHeap (strs h1 ++ values) (<[m := cell1]> (mets h1))).
  assert (Hm3 : mets h3 !! m = Some cell1).
  { simpl. apply list_lookup_insert_eq. rewrite Hm1. assumption. }
  assert (Hp3 : strs h1 `prefix_of` strs h3) by (apply prefix_app_r; reflexivity).
  assert (Hdv : elems h3 dv = Some values).
  { unfold h3, dv. rewrite <- (app_nil_r values) at 1. apply elems_alloc. }
  assert (Hv3 : elems h3 (metrics.LabelValues cell1) = Some vs).
  { simpl. eapply elems_mono; [exact Hv|]. etrans; eassumption. }
  destruct (appendStrings_full dv vs h3 values eq_refl Hdv)
    as (nv & h4 & Ha4 & Hp4 & Hm4 & Hnv).
  set (cell2 := {| metrics.Name := metrics.Name cell1;
                   metrics.LabelKeys := metrics.LabelKeys cell1;
                   metrics.LabelValues := nv;
                   metrics.Value := metrics.Value cell1 |}).
  exists (mkHeap (strs h4) (<[m := cell2]> (mets h4))).
  split.
  { unfold prependDefaults.
    rewrite (bind_ok _ _ _ _ _ (getLabelKeys_ok h m cell Hm)).
    rewrite (bind_ok _ _ _ _ _ (readSlice_ok h _ ks Hk)).
    rewrite (bind_ok _ _ _ _ _ Ha1).
    rewrite (bind_ok _ _ h1 tt h2)
      by (apply setLabelKeys_ok; rewrite Hm1; exact Hm).
    rewrite (bind_ok _ _ h2 dv h3) by reflexivity.
    rewrite (bind_ok _ _ _ _ _ (getLabelValues_ok h3 m cell1 Hm3)).
    rewrite (bind_ok _ _ _ _ _ (readSlice_ok h3 _ vs Hv3)).
    rewrite (bind_ok _ _ _ _ _ Ha4).
    apply setLabelValues_ok. rewrite Hm4. exact Hm3. }
  simpl. split; [|split; [|split]].
  - etrans; [exact Hp1|]. etrans; eassumption.
  - rewrite length_insert, Hm4. simpl. rewrite length_insert, Hm1. reflexivity.
  - intros q Hq. rewrite list_lookup_insert_ne by congruence.
    rewrite Hm4. simpl. rewrite list_lookup_insert_ne by congruence.
    rewrite Hm1. reflexivity.
  - unfold loadSample; simpl.
    rewrite list_lookup_insert_eq
      by (rewrite Hm4; simpl; rewrite length_insert, Hm1; assumption).
    simpl.
    assert (Hk5 : elems (mkHeap (strs h4) (<[m := cell2]> (mets h4))) nk = Some (D ++ ks)).
    { eapply elems_mono; [exact Hnk|]. simpl. etrans; eassumption. }
    assert (Hv5 : elems (mkHeap (strs h4) (<[m := cell2]> (mets h4))) nv = Some (values ++ vs)).
    { eapply elems_mono; [exact Hnv|]. reflexivity. }
    rewrite Hk5; simpl. rewrite Hv5; simpl. reflexivity.
Qed.

(** A loop that rewrites the cells of a family one after the other. *)
Lemma rewrites_loop {S} (Pre : heap -> Prop) (body : nat -> S -> M S)
  (g : nat -> S -> S) (T : Sample -> Sample) :
  (forall h h', Pre h -> strs h `prefix_of` strs h' -> Pre h') ->
  (forall h m acc s, Pre h -> loadSample h m = Some s ->
     rewrites (body m acc) h m (T s) (g m acc)) ->
  forall fam h ss acc,
    NoDup fam ->
    Pre h ->
    Forall2 (fun p s => loadSample h p = Some s) fam ss ->
    exists h',
      forRange fam body acc h = Ok (foldl (fun a m => g m a) acc fam, h')
      /\ strs h `prefix_of` strs h'
      /\ length (mets h') = length (mets h)
      /\ (forall q, q ∉ fam -> mets h' !! q = mets h !! q)
      /\ Forall2 (fun p s => loadSample h' p = Some s) fam (map T ss).
Proof.
  intros HPre Hbody. induction fam as [|p fam IH]; intros h ss acc Hnd HP HF.
  - apply Forall2_nil_inv_l in HF as ->. exists h. simpl.
    split; [reflexivity|]. split; [reflexivity|]. split; [reflexivity|].
    split; [reflexivity|constructor].
  - apply Forall2_cons_inv_l in HF as (s & ss' & Hs & HF & ->).
    apply NoDup_cons in Hnd as [Hp Hnd].
    destruct (Hbody h p acc s HP Hs) as (h1 & Hb & Hp1 & Hn1 & Ho1 & Hl1).
    destruct (IH h1 ss' (g p acc) Hnd) as (h2 & Hr & Hp2 & Hn2 & Ho2 & HF2).
    { eapply HPre; eassumption. }
    { eapply Forall2_impl_elem; [exact HF|]. simpl. intros q sq Hin Hq.
      eapply loadSample_frame; [exact Hq|exact Hp1|]. apply Ho1.
      intros ->. contradiction. }
    exists h2. simpl. rewrite (bind_ok _ _ _ _ _ Hb).
    split; [exact Hr|]. split; [etrans; eassumption|].
    split; [congruence|]. split.
    + intros q Hq. apply not_elem_of_cons in Hq as [Hqp Hq].
      rewrite Ho2 by assumption. apply Ho1. assumption.
    + constructor; [|assumption].
      eapply loadSample_frame; [exact Hl1|exact Hp2|]. apply Ho2. assumption.
Qed.

(** Rewriting only cells that were allocated after [h] keeps [h]. *)
Lemma frame_prefix h h1 h2 k :
  mets h `prefix_of` mets h1 ->
  length (mets h2) = length (mets h1) ->
  length (mets h1) = length (mets h) + k ->
  (forall q, q ∉ seq (length (mets h)) k -> mets h2 !! q = mets h1 !! q) ->
  mets h `prefix_of` mets h2.
Proof.
  intros [l Hl] Hn2 Hn1 Ho.
  assert (Heq : mets h = take (length (mets h)) (mets h2)).
  { apply list_eq. intros i.
    destruct (decide (i < length (mets h))) as [Hi|Hi].
    - rewrite lookup_take_lt by assumption.
      rewrite Ho by (rewrite elem_of_seq; lia).
      rewrite Hl, lookup_app_l by assumption. reflexivity.
    - rewrite lookup_take_ge by lia. apply lookup_ge_None. lia. }
  rewrite Heq at 1. apply prefix_take.
Qed.

(** A wrapper around a computation that yields new cells yields the same
    cells, each with the defaults in front. *)
Lemma wrapped_yields defaults values D (c : M metrics.Family) h ss :
  s_len defaults = s_cap defaults ->
  elems h defaults = Some D ->
  yields c h ss ->
  yields (do fam <- c;
          do _ <- forRange fam (prependDefaults defaults values) tt;
          ret fam) h (map (withDefaults D values) ss).
Proof.
  intros Hfull HD (h1 & Hc & [Hs1 Hm1] & Hn1 & Hl1). simpl in Hc.
  destruct (rewrites_loop (fun h => elems h defaults = Some D)
              (prependDefaults defaults values) (fun _ _ => tt)
              (withDefaults D values)) with
    (fam := seq (length (mets h)) (length ss)) (h := h1) (ss := ss) (acc := tt)
    as (h2 & Hr & Hp2 & Hn2 & Ho2 & HF2).
  { intros. eapply elems_mono; eassumption. }
  { intros h0 m [] s HD0 Hs0. apply prependDefaults_spec; assumption. }
  { apply NoDup_seq. }
  { eapply elems_mono; eassumption. }
  { apply mapM_Some. exact Hl1. }
  exists h2. rewrite length_map. simpl.
  rewrite (bind_ok _ _ _ _ _ Hc), (bind_ok _ _ _ _ _ Hr).
  split; [reflexivity|]. split; [|split].
  - split; [etrans; eassumption|]. eapply frame_prefix; eassumption.
  - lia.
  - apply mapM_Some. exact HF2.
Qed.

(** ** The registered functions refine their sample lists *)

Lemma concat_map_singleton {A B} (f : A -> B) (l : list A) :
  concat (map (fun x => [f x]) l) = map f l.
Proof. induction l as [|x l IH]; simpl; [reflexivity|]. rewrite IH. reflexivity. Qed.

Lemma yieldsFrom_newStrings f0 l (k : Slice -> M metrics.Family) h ss :
  yieldsFrom f0 (k (mkSlice (length (strs h)) (length l) (length l)))
    (mkHeap (strs h ++ l) (mets h)) ss ->
  yieldsFrom f0 (do s <- newStrings l; k s) h ss.
Proof.
  intros (h' & Hc & [Hs Hm] & Hn & Hl). simpl in *.
  exists h'. split; [exact Hc|]. split; [|split; assumption].
  split; [|assumption]. etrans; [|exact Hs]. apply prefix_app_r. reflexivity.
Qed.

Lemma yieldsFrom_readSlice f0 s l (k : list string -> M metrics.Family) h ss :
  elems h s = Some l ->
  yieldsFrom f0 (k l) h ss ->
  yieldsFrom f0 (do x <- readSlice s; k x) h ss.
Proof.
  intros He (h' & Hc & Hrest). exists h'.
  rewrite (bind_ok _ _ _ _ _ (readSlice_ok h s l He)). split; assumption.
Qed.

Lemma kube_pod_info_yields p h :
  yields (kube_pod_info_func p) h (pod_info_samples p).
Proof. exact (yieldsFrom_literal2 [] h _ _ _ _). Qed.

Lemma kube_pod_owner_yields p h :
  yields (kube_pod_owner_func p) h (pod_owner_samples p).
Proof.
  unfold yields, kube_pod_owner_func, pod_owner_samples.
  apply yieldsFrom_newStrings.
  set (labelKeys := mkSlice (length (strs h)) _ _).
  set (h1 := mkHeap _ _).
  assert (Hk : elems h1 labelKeys
               = Some ["owner_kind"; "owner_name"; "owner_is_controller"]).
  { unfold h1, labelKeys.
    rewrite <- (app_nil_r ["owner_kind"; "owner_name"; "owner_is_controller"]) at 1.
    apply elems_alloc. }
  destruct (metav1.OwnerReferences (v1.podMeta p)) as [|o os] eqn:Ho.
  - simpl. apply yieldsFrom_literal. exact Hk.
  - cbn [length Nat.eqb]. rewrite <- concat_map_singleton.
    apply (yieldsFrom_forRange
             (fun h => elems h labelKeys
                       = Some ["owner_kind"; "owner_name"; "owner_is_controller"])).
    + intros h0 h0' He [Hs _]. eapply elems_mono; eassumption.
    + intros x f h0 He. unfold owner_sample.
      destruct (metav1.Controller x); apply yieldsFrom_literal; exact He.
    + exact Hk.
Qed.

Lemma kube_pod_status_phase_yields p h :
  yields (kube_pod_status_phase_func p) h (pod_phase_samples p).
Proof.
  unfold yields, kube_pod_status_phase_func, pod_phase_samples. cbv zeta.
  destruct (String.eqb (v1.Phase (v1.Status p)) ""); [apply yieldsFrom_ret|].
  match goal with
  | |- yieldsFrom _ (forRange ?l ?body _) _ _ =>
      apply (yieldsFrom_forRange (fun _ => True) body
               (fun vn => [phase_sample (fst vn) (snd vn)]) l)
  end; [trivial| |trivial].
  intros [v n] f h0 _. apply yieldsFrom_literal2.
Qed.

(** [addConditionMetrics] allocates three unnamed cells without keys. *)
Lemma addConditionMetrics_yields status h :
  yields (addConditionMetrics status) h
    [ mkSample "" [] ["true"] (boolFloat64 (String.eqb status v1.ConditionTrue));
      mkSample "" [] ["false"] (boolFloat64 (String.eqb status v1.ConditionFalse));
      mkSample "" [] ["unknown"] (boolFloat64 (String.eqb status v1.ConditionUnknown)) ].
Proof.
  pose (lit := fun (label : string) (v : float64) (f : metrics.Family) =>
    do vs <- newStrings [label];
    do m <- newMetric {| metrics.Name := ""; metrics.LabelKeys := nilSlice;
                         metrics.LabelValues := vs; metrics.Value := v |};
    ret (f ++ [m])).
  change (yieldsFrom []
    (do f1 <- lit "true" (boolFloat64 (String.eqb status v1.ConditionTrue)) [];
     do f2 <- lit "false" (boolFloat64 (String.eqb status v1.ConditionFalse)) f1;
     lit "unknown" (boolFloat64 (String.eqb status v1.ConditionUnknown)) f2) h
    ([mkSample "" [] ["true"] (boolFloat64 (String.eqb status v1.ConditionTrue))]
     ++ [mkSample "" [] ["false"] (boolFloat64 (String.eqb status v1.ConditionFalse))]
     ++ [mkSample "" [] ["unknown"]
           (boolFloat64 (String.eqb status v1.ConditionUnknown))])).
  apply yieldsFrom_bind; [apply yieldsFrom_literal, elems_nil|].
  intros f1 h1 _. apply yieldsFrom_bind; [apply yieldsFrom_literal, elems_nil|].
  intros f2 h2 _. apply yieldsFrom_literal, elems_nil.
Qed.

(** The caller's loop names a cell and gives it the [condition] key. *)
Lemma relabel_rewrites name h m f s :
  loadSample h m = Some s ->
  rewrites (do _ <- setName m name;
            do ks <- newStrings ["condition"];
            do _ <- setLabelKeys m ks;
            ret (f ++ [m])) h m
    (mkSample name ["condition"] (sValues s) (sValue s)) (f ++ [m]).
Proof.
  intros Hs. unfold rewrites. unfold loadSample in Hs.
  destruct (mets h !! m) as [cell|] eqn:Hm; simpl in Hs; [|discriminate].
  destruct (elems h (metrics.LabelKeys cell)) as [ks|] eqn:Hk; simpl in Hs; [|discriminate].
  destruct (elems h (metrics.LabelValues cell)) as [vs|] eqn:Hv; simpl in Hs; [|discriminate].
  injection Hs as <-. simpl.
  pose proof (lookup_lt_Some _ _ _ Hm) as Hlt.
  set (cell1 := {| metrics.Name := name;
                   metrics.LabelKeys := metrics.LabelKeys cell;
                   metrics.LabelValues := metrics.LabelValues cell;
                   metrics.Value := metrics.Value cell |}).
  set (h1 := mkHeap (strs h) (<[m := cell1]> (mets h))).
  set (ks1 := mkSlice (length (strs h)) 1 1).
  set (h2 := mkHeap (strs h ++ ["condition"]) (<[m := cell1]> (mets h))).
  assert (Hm2 : mets h2 !! m = Some cell1).
  { simpl. apply list_lookup_insert_eq. assumption. }
  eexists. split.
  { rewrite (bind_ok _ _ h tt h1) by (apply setName_ok; exact Hm).
    rewrite (bind_ok _ _ h1 ks1 h2) by reflexivity.
    rewrite (bind_ok _ _ _ _ _ (setLabelKeys_ok h2 m cell1 ks1 Hm2)).
    reflexivity. }
  simpl. split; [apply prefix_app_r; reflexivity|]. split; [|split].
  - rewrite !length_insert. reflexivity.
  - intros q Hq. rewrite !list_lookup_insert_ne by congruence. reflexivity.
  - unfold loadSample; simpl.
    rewrite list_lookup_insert_eq by (rewrite length_insert; assumption). simpl.
    match goal with
    | |- context [elems ?hh ks1] =>
        assert (Hk1 : elems hh ks1 = Some ["condition"])
          by (unfold ks1; rewrite <- (app_nil_r ["condition"]) at 1; apply elems_alloc);
        assert (Hv1 : elems hh (metrics.LabelValues cell) = Some vs)
          by (eapply elems_mono; [exact Hv|]; simpl; apply prefix_app_r; reflexivity)
    end.
    rewrite Hk1; simpl. rewrite Hv1; simpl. reflexivity.
Qed.

Lemma condition_body_yields name status f h :
  yieldsFrom f
    (do ms <- addConditionMetrics status;
     forRange ms (fun m f =>
       let metric := m in
       do _ <- setName metric name;
       do ks <- newStrings ["condition"];
       do _ <- setLabelKeys metric ks;
       ret (f ++ [metric])) f) h (condition_samples name status).
Proof.
  destruct (addConditionMetrics_yields status h)
    as (h1 & Hc & [Hs1 Hm1] & Hn1 & Hl1).
  cbn [app length] in Hc, Hn1, Hl1.
  match goal with
  | |- yieldsFrom _ (do ms <- _; forRange ms ?body _) _ _ =>
      destruct (rewrites_loop (fun _ => True) body (fun m a => a ++ [m])
                  (fun s => mkSample name ["condition"] (sValues s) (sValue s)))
        with (fam := seq (length (mets h)) 3) (h := h1) (acc := f)
             (ss := [ mkSample "" [] ["true"]
                        (boolFloat64 (String.eqb status v1.ConditionTrue));
                      mkSample "" [] ["false"]
                        (boolFloat64 (String.eqb status v1.ConditionFalse));
                      mkSample "" [] ["unknown"]
                        (boolFloat64 (String.eqb status v1.ConditionUnknown)) ])
        as (h2 & Hr & Hp2 & Hn2 & Ho2 & HF2)
  end.
  { trivial. }
  { intros h0 m acc s _ Hs. apply relabel_rewrites. exact Hs. }
  { apply NoDup_seq. }
  { trivial. }
  { apply mapM_Some. exact Hl1. }
  exists h2. simpl length.
  rewrite (bind_ok _ _ _ _ _ Hc), Hr.
  split; [simpl; rewrite <- !app_assoc; reflexivity|]. split; [|split].
  - split; [etrans; eassumption|].
    eapply (frame_prefix h h1 h2 3); eassumption.
  - lia.
  - apply mapM_Some. exact HF2.
Qed.

Lemma pod_condition_yields name type (conds : list v1.PodCondition) h :
  yields
    (forRange conds (fun c f =>
       if String.eqb (v1.Type_ c) type then
         do ms <- addConditionMetrics (v1.condStatus c);
         forRange ms (fun m f =>
           let metric := m in
           do _ <- setName metric name;
           do ks <- newStrings ["condition"];
           do _ <- setLabelKeys metric ks;
           ret (f ++ [metric])) f
       else ret f) []) h (pod_condition_samples name type conds).
Proof.
  unfold yields, pod_condition_samples.
  match goal with
  | |- yieldsFrom _ (forRange ?l ?body _) _ (concat (map ?S _)) =>
      apply (yieldsFrom_forRange (fun _ => True) body S l)
  end; [trivial| |trivial].
  intros c f h0 _. simpl.
  destruct (String.eqb (v1.Type_ c) type);
    [apply condition_body_yields|apply yieldsFrom_ret].
Qed.

Lemma kube_pod_status_ready_yields p h :
  yields (kube_pod_status_ready_func p) h
    (pod_condition_samples "kube_pod_status_ready" v1.PodReady
       (v1.Conditions (v1.Status p))).
Proof. apply pod_condition_yields. Qed.

Lemma kube_pod_status_scheduled_yields p h :
  yields (kube_pod_status_scheduled_func p) h
    (pod_condition_samples "kube_pod_status_scheduled" v1.PodScheduled
       (v1.Conditions (v1.Status p))).
Proof. apply pod_condition_yields. Qed.

Lemma kube_pod_container_status_waiting_reason_yields p h :
  heap_ok h ->
  yields (kube_pod_container_status_waiting_reason_func p) h
    (pod_waiting_reason_samples p).
Proof.
  intros Hok.
  unfold yields, kube_pod_container_status_waiting_reason_func,
    pod_waiting_reason_samples.
  match goal with
  | |- yieldsFrom _ (forRange ?l ?body _) _ (concat (map ?S _)) =>
      apply (yieldsFrom_forRange heap_ok body S l)
  end; [apply heap_ok_extends| |exact Hok].
  intros cs f h0 Hok0. cbv beta.
  apply (yieldsFrom_readSlice f _ waitingReasons).
  { apply elems_global; [exact Hok0|reflexivity]. }
  rewrite <- concat_map_singleton.
  match goal with
  | |- yieldsFrom _ (forRange ?l ?body _) _ (concat (map ?S _)) =>
      apply (yieldsFrom_forRange (fun _ => True) body S l)
  end; [trivial| |trivial].
  intros reason f1 h1 _. apply yieldsFrom_literal2.
Qed.

Lemma kube_deployment_created_yields d h :
  yields (kube_deployment_created_func d) h (deployment_created_samples d).
Proof.
  unfold yields, kube_deployment_created_func, deployment_created_samples.
  destruct (negb _); [apply yieldsFrom_plain|apply yieldsFrom_ret].
Qed.

Lemma kube_labels_yields name (kv : list string * list string) h :
  yields (let '(keys, values) := kv in
          do labelKeys <- newStrings keys;
          do labelValues <- newStrings values;
          do m <- newMetric {| metrics.Name := name;
                               metrics.LabelKeys := labelKeys;
                               metrics.LabelValues := labelValues;
                               metrics.Value := 1 |};
          ret [m]) h [labels_sample name kv].
Proof. destruct kv as [keys values]. exact (yieldsFrom_literal2 [] h _ _ _ _). Qed.

Lemma podFuncs_refine : Forall2 refines podFuncs podSamples.
Proof.
  repeat constructor; intros p; simpl; intros h Hok.
  - apply kube_pod_info_yields.
  - apply kube_pod_owner_yields.
  - apply kube_pod_status_phase_yields.
  - apply kube_pod_status_ready_yields.
  - apply kube_pod_status_scheduled_yields.
  - apply kube_pod_container_status_waiting_reason_yields. exact Hok.
Qed.

Lemma deploymentFuncs_refine : Forall2 refines deploymentFuncs deploymentSamples.
Proof.
  repeat constructor; intros d; simpl.
  - intros h _. apply kube_deployment_created_yields.
  - intros h _. exact (yieldsFrom_plain [] h _ _).
  - intros h _. exact (yieldsFrom_plain [] h _ _).
  - intros h _. exact (yieldsFrom_plain [] h _ _).
  - unfold kube_deployment_spec_replicas_func.
    destruct (v1beta1.specReplicas (v1beta1.Spec d)) as [replicas|].
    + intros h _. exact (yieldsFrom_plain [] h _ _).
    + eexists. intros h. reflexivity.
  - intros h _. apply kube_labels_yields.
Qed.

Lemma namespaceFuncs_refine : Forall2 refines namespaceFuncs namespaceSamples.
Proof.
  repeat constructor; intros n; simpl; intros h _; apply kube_labels_yields.
Qed.

(** The wrappers carry a refinement over. *)
Lemma wrapPodFunc_refines f out :
  refines f out -> refines (wrapPodFunc f) (wrapPodSamples out).
Proof.
  intros Hf [p|d|n]; simpl; try (eexists; intros h; reflexivity).
  specialize (Hf p). destruct (out p) as [ss|]; simpl.
  - intros h Hok.
    apply (wrapped_yields descPodLabelsDefaultLabels (podDefaults p)
             ["namespace"; "pod"] (f p) h ss eq_refl).
    + apply elems_global; [exact Hok|reflexivity].
    + apply Hf. exact Hok.
  - destruct Hf as [msg Hf]. exists msg. intros h. unfold bind. rewrite Hf. reflexivity.
Qed.

Lemma wrapDeploymentFunc_refines f out :
  refines f out -> refines (wrapDeploymentFunc f) (wrapDeploymentSamples out).
Proof.
  intros Hf [p|d|n]; simpl; try (eexists; intros h; reflexivity).
  specialize (Hf d). destruct (out d) as [ss|]; simpl.
  - intros h Hok.
    apply (wrapped_yields descDeploymentLabelsDefaultLabels (deploymentDefaults d)
             ["namespace"; "deployment"] (f d) h ss eq_refl).
    + apply elems_global; [exact Hok|reflexivity].
    + apply Hf. exact Hok.
  - destruct Hf as [msg Hf]. exists msg. intros h. unfold bind. rewrite Hf. reflexivity.
Qed.

Lemma wrapNamespaceFunc_refines f out :
  refines f out -> refines (wrapNamespaceFunc f) (wrapNamespaceSamples out).
Proof.
  intros Hf [p|d|n]; simpl; try (eexists; intros h; reflexivity).
  specialize (Hf n). destruct (out n) as [ss|]; simpl.
  - intros h Hok.
    apply (wrapped_yields descNamespaceLabelsDefaultLabels (namespaceDefaults n)
             ["namespace"] (f n) h ss eq_refl).
    + apply elems_global; [exact Hok|reflexivity].
    + apply Hf. exact Hok.
  - destruct Hf as [msg Hf]. exists msg. intros h. unfold bind. rewrite Hf. reflexivity.
Qed.

Lemma Forall2_wrap {A} (wrapF : (A -> M metrics.Family) -> Object -> M metrics.Family)
  (wrapS : (A -> option (list Sample)) -> Object -> option (list Sample)) fs outs :
  (forall f out, refines f out -> refines (wrapF f) (wrapS out)) ->
  Forall2 refines fs outs ->
  Forall2 refines (map wrapF fs) (map wrapS outs).
Proof.
  intros Hw HF. induction HF; simpl; constructor; auto.
Qed.

(** Every registered generator refines its sample list. *)
Lemma allMetricFamilies_refine :
  Forall2 refines (map GenerateFunc allMetricFamilies) allSamples.
Proof.
  unfold allMetricFamilies, allSamples. rewrite !map_app.
  repeat apply Forall2_app.
  - apply (Forall2_wrap wrapPodFunc wrapPodSamples podFuncs podSamples).
    + apply wrapPodFunc_refines.
    + apply podFuncs_refine.
  - apply (Forall2_wrap wrapDeploymentFunc wrapDeploymentSamples
             deploymentFuncs deploymentSamples).
    + apply wrapDeploymentFunc_refines.
    + apply deploymentFuncs_refine.
  - apply (Forall2_wrap wrapNamespaceFunc wrapNamespaceSamples
             namespaceFuncs namespaceSamples).
    + apply wrapNamespaceFunc_refines.
    + apply namespaceFuncs_refine.
Qed.

(** What yields also emits, and a computation emits one list only. *)
Lemma yields_emits c h ss : yields c h ss -> emits c h ss.
Proof.
  intros (h' & Hc & _ & _ & Hl). simpl in Hc.
  exists (seq (length (mets h)) (length ss)), h'. split; assumption.
Qed.

Lemma emits_unique c h ss ss' : emits c h ss -> emits c h ss' -> ss = ss'.
Proof.
  intros (f1 & h1 & Hc1 & Hl1) (f2 & h2 & Hc2 & Hl2).
  rewrite Hc1 in Hc2. injection Hc2 as <- <-. congruence.
Qed.

Lemma wrapPodFunc_yields f p h ss :
  heap_ok h ->
  yields (f p) h ss ->
  yields (wrapPodFunc f (PodObj p)) h
    (map (withDefaults ["namespace"; "pod"] (podDefaults p)) ss).
Proof.
  intros Hok Hy.
  apply (wrapped_yields descPodLabelsDefaultLabels (podDefaults p)
           ["namespace"; "pod"] (f p) h ss eq_refl); [|exact Hy].
  apply elems_global; [exact Hok|reflexivity].
Qed.

Lemma wrapDeploymentFunc_yields f d h ss :
  heap_ok h ->
  yields (f d) h ss ->
  yields (wrapDeploymentFunc f (DeploymentObj d)) h
    (map (withDefaults ["namespace"; "deployment"] (deploymentDefaults d)) ss).
Proof.
  intros Hok Hy.
  apply (wrapped_yields descDeploymentLabelsDefaultLabels (deploymentDefaults d)
           ["namespace"; "deployment"] (f d) h ss eq_refl); [|exact Hy].
  apply elems_global; [exact Hok|reflexivity].
Qed.

Lemma wrapNamespaceFunc_yields f n h ss :
  heap_ok h ->
  yields (f n) h ss ->
  yields (wrapNamespaceFunc f (NamespaceObj n)) h
    (map (withDefaults ["namespace"] (namespaceDefaults n)) ss).
Proof.
  intros Hok Hy.
  apply (wrapped_yields descNamespaceLabelsDefaultLabels (namespaceDefaults n)
           ["namespace"] (f n) h ss eq_refl); [|exact Hy].
  apply elems_global; [exact Hok|reflexivity].
Qed.

Lemma float_one_ne_zero : 1%float <> 0%float.
Proof.
  intros H. apply (f_equal (fun x => PrimFloat.eqb x 1)) in H.
  vm_compute in H. discriminate.
Qed.

Lemma boolFloat64_one b : boolFloat64 b = 1%float <-> b = true.
Proof.
  destruct b; simpl; split; intros H.
  - reflexivity.
  - reflexivity.
  - symmetry in H. destruct (float_one_ne_zero H).
  - discriminate.
Qed.

Lemma boolFloat64_zero b : boolFloat64 b = 0%float <-> b = false.
Proof.
  destruct b; simpl; split; intros H.
  - destruct (float_one_ne_zero H).
  - discriminate.
  - reflexivity.
  - reflexivity.
Qed.

(** ** The claims *)

(** C1: a pod whose phase field is "Running", whose deletion timestamp is
    set and whose status reason is the unreachable-node reason gets the
    five [kube_pod_status_phase] samples (Pending, Succeeded, Failed,
    Running, Unknown) with "Unknown" at 1 and all others, "Running"
    included, at 0. *)
Theorem phase_unreachable_is_unknown (p : v1.Pod) (h : heap) :
  heap_ok h ->
  v1.Phase (v1.Status p) = v1.PodRunning ->
  metav1.DeletionTimestamp (v1.podMeta p) <> None ->
  v1.Reason (v1.Status p) = node.NodeUnreachablePodReason ->
  emits (wrapPodFunc kube_pod_status_phase_func (PodObj p)) h
    (map (fun nv : string * float64 =>
            mkSample "kube_pod_status_phase"
              ["namespace"; "pod"; "phase"]
              [metav1.Namespace (v1.podMeta p); metav1.Name (v1.podMeta p); fst nv]
              (snd nv))
       [ ("Pending", 0%float); ("Succeeded", 0%float); ("Failed", 0%float);
         ("Running", 0%float); ("Unknown", 1%float) ]).
Proof.
  intros Hok Hphase Hdel Hreason.
  apply yields_emits.
  pose proof (wrapPodFunc_yields kube_pod_status_phase_func p h _ Hok
                (kube_pod_status_phase_yields p h)) as Hy.
  unfold pod_phase_samples in Hy. cbv zeta in Hy.
  rewrite Hphase, Hreason in Hy.
  rewrite (bool_decide_eq_true_2 _ Hdel) in Hy.
  exact Hy.
Qed.

(** C10: [kube_pod_info] gives every pod exactly one sample, valued 1,
    with the six labels host_ip, pod_ip, uid, node, created_by_kind and
    created_by_name after the default ones; the last two echo the kind
    and name of the controlling owner reference, and are "<none>", never
    empty, when there is no controller or when its kind or name is
    empty. *)
Theorem pod_info_sample (p : v1.Pod) (h : heap) :
  heap_ok h ->
  exists kind name : string,
    emits (wrapPodFunc kube_pod_info_func (PodObj p)) h
      [ mkSample "kube_pod_info"
          [ "namespace"; "pod"; "host_ip"; "pod_ip"; "uid"; "node";
            "created_by_kind"; "created_by_name" ]
          [ metav1.Namespace (v1.podMeta p); metav1.Name (v1.podMeta p);
            v1.HostIP (v1.Status p); v1.PodIP (v1.Status p);
            metav1.UID (v1.podMeta p); v1.NodeName (v1.Spec p); kind; name ]
          1%float ]
    /\ kind <> "" /\ name <> ""
    /\ (metav1.GetControllerOf (v1.podMeta p) = None ->
        kind = "<none>" /\ name = "<none>")
    /\ (forall c, metav1.GetControllerOf (v1.podMeta p) = Some c ->
        (metav1.Kind c = "" -> kind = "<none>")
        /\ (metav1.Kind c <> "" -> kind = metav1.Kind c)
        /\ (metav1.ownerName c = "" -> name = "<none>")
        /\ (metav1.ownerName c <> "" -> name = metav1.ownerName c)).
Proof.
  intros Hok.
  pose proof (yields_emits _ _ _
                (wrapPodFunc_yields kube_pod_info_func p h _ Hok
                   (kube_pod_info_yields p h))) as He.
  unfold pod_info_samples in He. cbv zeta in He.
  destruct (metav1.GetControllerOf (v1.podMeta p)) as [c|].
  - destruct (String.eqb_spec (metav1.Kind c) "") as [Hk|Hk];
      destruct (String.eqb_spec (metav1.ownerName c) "") as [Hn|Hn];
      eexists _, _; (split; [exact He|]);
      (split; [try discriminate; assumption|]);
      (split; [try discriminate; assumption|]);
      (split; [discriminate|]);
      intros c' [= <-]; repeat split; intros; try reflexivity; contradiction.
  - exists "<none>", "<none>". split; [exact He|].
    split; [discriminate|]. split; [discriminate|].
    split; [split; reflexivity|]. intros c' [=].
Qed.

(** C5: [kube_pod_owner] gives a pod without owner references exactly one
    sample, valued 1, whose owner_kind, owner_name and owner_is_controller
    are all "<none>"; otherwise it gives one sample per owner reference,
    in order, echoing the owner's kind and name and the controller flag
    as "true" or "false" ("false" when the flag is not set). *)
Theorem pod_owner_sample_per_reference (p : v1.Pod) (h : heap) :
  heap_ok h ->
  (metav1.OwnerReferences (v1.podMeta p) = [] ->
   emits (wrapPodFunc kube_pod_owner_func (PodObj p)) h
     [ mkSample "kube_pod_owner"
         ["namespace"; "pod"; "owner_kind"; "owner_name"; "owner_is_controller"]
         [ metav1.Namespace (v1.podMeta p); metav1.Name (v1.podMeta p);
           "<none>"; "<none>"; "<none>" ]
         1%float ])
  /\ (metav1.OwnerReferences (v1.podMeta p) <> [] ->
      emits (wrapPodFunc kube_pod_owner_func (PodObj p)) h
        (map (fun owner =>
                mkSample "kube_pod_owner"
                  ["namespace"; "pod"; "owner_kind"; "owner_name"; "owner_is_controller"]
                  [ metav1.Namespace (v1.podMeta p); metav1.Name (v1.podMeta p);
                    metav1.Kind owner; metav1.ownerName owner;
                    match metav1.Controller owner with
                    | Some true => "true"
                    | Some false => "false"
                    | None => "false"
                    end ]
                  1%float)
           (metav1.OwnerReferences (v1.podMeta p)))).
Proof.
  intros Hok.
  pose proof (yields_emits _ _ _
                (wrapPodFunc_yields kube_pod_owner_func p h _ Hok
                   (kube_pod_owner_yields p h))) as He.
  unfold pod_owner_samples in He.
  destruct (metav1.OwnerReferences (v1.podMeta p)) as [|o os]; split; intros Ho.
  - exact He.
  - contradiction.
  - discriminate.
  - rewrite map_map in He.
    erewrite map_ext; [exact He|].
    intros o'. unfold withDefaults, owner_sample, podDefaults; simpl.
    destruct (metav1.Controller o') as [[|]|]; reflexivity.
Qed.

(** C4: for every container status of a pod,
    [kube_pod_container_status_waiting_reason] gives one sample per reason
    of the fixed list (ContainerCreating, CrashLoopBackOff,
    CreateContainerConfigError, ErrImagePull, ImagePullBackOff), in that
    order; a sample is 1 exactly when the container has a waiting state
    whose reason is the sample's reason, and 0 otherwise, so a container
    waiting for a reason outside the list has all its samples at 0. *)
Theorem waiting_reason_enumerated (p : v1.Pod) (h : heap) :
  heap_ok h ->
  elems h containerWaitingReasons
  = Some [ "ContainerCreating"; "CrashLoopBackOff"; "CreateContainerConfigError";
           "ErrImagePull"; "ImagePullBackOff" ]
  /\ emits (wrapPodFunc kube_pod_container_status_waiting_reason_func (PodObj p)) h
       (concat
          (map (fun cs =>
                  map (fun reason =>
                         mkSample "kube_pod_container_status_waiting_reason"
                           ["namespace"; "pod"; "container"; "reason"]
                           [ metav1.Namespace (v1.podMeta p);
                             metav1.Name (v1.podMeta p);
                             v1.containerName cs; reason ]
                           (boolFloat64 (waitingReason cs reason)))
                    [ "ContainerCreating"; "CrashLoopBackOff";
                      "CreateContainerConfigError"; "ErrImagePull";
                      "ImagePullBackOff" ])
               (v1.ContainerStatuses (v1.Status p))))
  /\ (forall cs reason,
        (boolFloat64 (waitingReason cs reason) = 1%float
         <-> exists w, v1.Waiting (v1.State cs) = Some w
                       /\ v1.waitingReason_ w = reason)
        /\ (boolFloat64 (waitingReason cs reason) = 0%float
            <-> ~ exists w, v1.Waiting (v1.State cs) = Some w
                            /\ v1.waitingReason_ w = reason))
  /\ (forall cs w,
        v1.Waiting (v1.State cs) = Some w ->
        v1.waitingReason_ w ∉ waitingReasons ->
        forall reason, reason ∈ waitingReasons ->
                       boolFloat64 (waitingReason cs reason) = 0%float).
Proof.
  intros Hok.
  assert (Hw : forall cs reason,
             waitingReason cs reason = true
             <-> exists w, v1.Waiting (v1.State cs) = Some w
                           /\ v1.waitingReason_ w = reason).
  { intros cs reason. unfold waitingReason.
    destruct (v1.Waiting (v1.State cs)) as [w|].
    - rewrite String.eqb_eq. split.
      + intros <-. exists w. split; reflexivity.
      + intros (w' & [= <-] & Hr). exact Hr.
    - split; [discriminate|]. intros (w' & [=] & _). }
  split; [apply elems_global; [exact Hok|reflexivity]|].
  split; [|split].
  - pose proof (yields_emits _ _ _
                  (wrapPodFunc_yields kube_pod_container_status_waiting_reason_func
                     p h _ Hok
                     (kube_pod_container_status_waiting_reason_yields p h Hok))) as He.
    unfold pod_waiting_reason_samples in He.
    rewrite concat_map, map_map in He.
    erewrite map_ext; [exact He|].
    intros cs. cbv beta. rewrite map_map. reflexivity.
  - intros cs reason. split.
    + rewrite boolFloat64_one. apply Hw.
    + rewrite boolFloat64_zero, <- Hw. destruct (waitingReason cs reason); split; congruence.
  - intros cs w Hcs Hout reason Hin.
    apply boolFloat64_zero. unfold waitingReason. rewrite Hcs.
    apply String.eqb_neq. intros Heq. apply Hout. rewrite Heq. exact Hin.
Qed.

Lemma pod_condition_samples_app name type l1 l2 :
  pod_condition_samples name type (l1 ++ l2)
  = pod_condition_samples name type l1 ++ pod_condition_samples name type l2.
Proof. unfold pod_condition_samples. rewrite map_app, concat_app. reflexivity. Qed.

Lemma pod_condition_samples_none name type l :
  (forall c, c ∈ l -> v1.Type_ c <> type) -> pod_condition_samples name type l = [].
Proof.
  unfold pod_condition_samples. induction l as [|c l IH]; intros Hl; simpl.
  - reflexivity.
  - rewrite (proj2 (String.eqb_neq _ _)) by (apply Hl; left).
    simpl. apply IH. intros c' Hc'. apply Hl. right. exact Hc'.
Qed.

Lemma condition_encoded f name type (p : v1.Pod) (h : heap) pre c post :
  (forall h, yields (f p) h
               (pod_condition_samples name type (v1.Conditions (v1.Status p)))) ->
  heap_ok h ->
  v1.Conditions (v1.Status p) = pre ++ c :: post ->
  v1.condStatus c = v1.ConditionTrue \/ v1.condStatus c = v1.ConditionFalse
  \/ v1.condStatus c = v1.ConditionUnknown ->
  v1.Type_ c = type ->
  exists before after vt vf vu,
    emits (wrapPodFunc f (PodObj p)) h (before ++ tristate p name vt vf vu ++ after)
    /\ one_hot (v1.condStatus c) vt vf vu
    /\ ((forall c', c' ∈ pre ++ post -> v1.Type_ c' <> type) ->
        before = [] /\ after = []).
Proof.
  intros Hf Hok Hconds Hstatus Htype.
  pose proof (yields_emits _ _ _ (wrapPodFunc_yields f p h _ Hok (Hf h))) as He.
  rewrite Hconds in He.
  change (pre ++ c :: post) with (pre ++ [c] ++ post) in He.
  rewrite !pod_condition_samples_app, !map_app in He.
  unfold pod_condition_samples at 2 in He. simpl in He.
  rewrite Htype, String.eqb_refl, app_nil_r in He.
  eexists _, _, _, _, _. split; [exact He|]. split.
  - unfold one_hot.
    destruct Hstatus as [-> | [-> | ->]];
      [left | right; left | right; right]; repeat split; reflexivity.
  - intros Honly. split.
    + rewrite pod_condition_samples_none; [reflexivity|].
      intros c' Hc'. apply Honly. apply elem_of_app. left. exact Hc'.
    + rewrite pod_condition_samples_none; [reflexivity|].
      intros c' Hc'. apply Honly. apply elem_of_app. right. exact Hc'.
Qed.

(** C6: for every PodReady condition of a pod whose status is True, False
    or Unknown, [kube_pod_status_ready] gives three samples of that name
    that carry, after the default labels, the one label "condition" with
    the values "true", "false" and "unknown"; the one that matches the
    status is 1 and the other two are 0.  They are all the samples when
    the pod has no other PodReady condition.  The same holds of
    PodScheduled conditions and [kube_pod_status_scheduled]. *)
Theorem condition_three_samples (p : v1.Pod) (h : heap)
  (pre post : list v1.PodCondition) (c : v1.PodCondition) :
  heap_ok h ->
  v1.Conditions (v1.Status p) = pre ++ c :: post ->
  v1.condStatus c = v1.ConditionTrue \/ v1.condStatus c = v1.ConditionFalse
  \/ v1.condStatus c = v1.ConditionUnknown ->
  (v1.Type_ c = v1.PodReady ->
   exists before after vt vf vu,
     emits (wrapPodFunc kube_pod_status_ready_func (PodObj p)) h
       (before ++ tristate p "kube_pod_status_ready" vt vf vu ++ after)
     /\ one_hot (v1.condStatus c) vt vf vu
     /\ ((forall c', c' ∈ pre ++ post -> v1.Type_ c' <> v1.PodReady) ->
         before = [] /\ after = []))
  /\ (v1.Type_ c = v1.PodScheduled ->
      exists before after vt vf vu,
        emits (wrapPodFunc kube_pod_status_scheduled_func (PodObj p)) h
          (before ++ tristate p "kube_pod_status_scheduled" vt vf vu ++ after)
        /\ one_hot (v1.condStatus c) vt vf vu
        /\ ((forall c', c' ∈ pre ++ post -> v1.Type_ c' <> v1.PodScheduled) ->
            before = [] /\ after = [])).
Proof.
  intros Hok Hconds Hstatus. split; intros Htype.
  - apply (condition_encoded kube_pod_status_ready_func "kube_pod_status_ready"
             v1.PodReady p h pre c post); try assumption.
    intros h0. apply kube_pod_status_ready_yields.
  - apply (condition_encoded kube_pod_status_scheduled_func "kube_pod_status_scheduled"
             v1.PodScheduled p h pre c post); try assumption.
    intros h0. apply kube_pod_status_scheduled_yields.
Qed.


(** C7, as the code has it: on a deployment whose [Spec.Replicas] is nil
    the [kube_deployment_spec_replicas] generator panics, in every store,
    instead of returning no sample. *)
Theorem spec_replicas_nil_panics (meta : metav1.ObjectMeta)
  (status : v1beta1.DeploymentStatus) (h : heap) :
  wrapDeploymentFunc kube_deployment_spec_replicas_func
    (DeploymentObj {| v1beta1.depMeta := meta;
                      v1beta1.Spec := {| v1beta1.specReplicas := None |};
                      v1beta1.Status := status |}) h
  = Panic "invalid memory address or nil pointer dereference".
Proof. unfold wrapDeploymentFunc, bind. simpl. reflexivity. Qed.

(** ** The registry as a whole *)

Lemma refines_emits {A} (f : A -> M metrics.Family) out x h ss :
  refines f out -> heap_ok h -> emits (f x) h ss -> out x = Some ss.
Proof.
  intros Href Hok He. specialize (Href x). destruct (out x) as [ss'|].
  - f_equal. eapply emits_unique; [|exact He]. apply yields_emits, Href, Hok.
  - destruct Href as [msg Hp]. destruct He as (fam & h' & Hc & _).
    rewrite Hp in Hc. discriminate.
Qed.

Lemma Forall2_map_lookup {A B C} (P : B -> C -> Prop) (f : A -> B)
  (l : list A) (k : list C) i x :
  Forall2 P (map f l) k -> l !! i = Some x -> exists y, k !! i = Some y /\ P (f x) y.
Proof.
  revert k i. induction l as [|a l IH]; intros k i HF Hl; [discriminate|].
  simpl in HF. inversion HF as [|? y ? k' Hay HF']; subst.
  destruct i as [|i]; simpl in *.
  - injection Hl as ->. exists y. split; [reflexivity|assumption].
  - apply IH; assumption.
Qed.

Lemma allMetricFamilies_lookup i g :
  allMetricFamilies !! i = Some g ->
  exists out, allSamples !! i = Some out /\ refines (GenerateFunc g) out.
Proof. apply Forall2_map_lookup, allMetricFamilies_refine. Qed.

(** C9: run twice on the same object, a registered generator returns
    families that read back as the same samples (names, label keys,
    label values and values); the samples of the first run still read
    back the same after the second, and the package-level slices are
    intact after each run.  A generator that panics does so in every
    store. *)
Theorem generators_idempotent (i : nat) (g : FamilyGenerator) (obj : Object)
  (h : heap) :
  heap_ok h ->
  allMetricFamilies !! i = Some g ->
  match GenerateFunc g obj h with
  | Ok (fam1, h1) =>
      heap_ok h1
      /\ exists ss fam2 h2,
           loadFamily h1 fam1 = Some ss
           /\ GenerateFunc g obj h1 = Ok (fam2, h2)
           /\ loadFamily h2 fam2 = Some ss
           /\ loadFamily h2 fam1 = Some ss
           /\ heap_ok h2
  | Panic msg => forall h', GenerateFunc g obj h' = Panic msg
  end.
Proof.
  intros Hok Hg.
  destruct (allMetricFamilies_lookup i g Hg) as (out & _ & Href).
  specialize (Href obj). destruct (out obj) as [ss|].
  - destruct (Href h Hok) as (h1 & Hc1 & He1 & Hn1 & Hl1).
    rewrite Hc1. simpl app.
    assert (Hok1 : heap_ok h1) by (eapply heap_ok_extends; eassumption).
    destruct (Href h1 Hok1) as (h2 & Hc2 & He2 & Hn2 & Hl2).
    split; [exact Hok1|].
    exists ss, (seq (length (mets h1)) (length ss)), h2.
    split; [exact Hl1|]. split; [exact Hc2|]. split; [exact Hl2|].
    split; [eapply loadFamily_mono; eassumption|].
    eapply heap_ok_extends; eassumption.
  - destruct Href as [msg Hp]. rewrite Hp. exact Hp.
Qed.

Lemma wrapDeploymentFunc_panics f d h msg :
  f d h = Panic msg -> wrapDeploymentFunc f (DeploymentObj d) h = Panic msg.
Proof. intros Hf. unfold wrapDeploymentFunc, bind. rewrite Hf. reflexivity. Qed.

(** C2: every registered generator is the kind's wrapper around its
    function, and on every object of the kind the samples of the wrapped
    generator are those of the function with the kind's default label
    keys in front of the keys (namespace and pod; namespace and
    deployment; namespace) and the object's namespace and name in front
    of the values.  Pod and namespace functions always yield; a
    deployment function may panic, and then so does the generator. *)
Theorem default_labels_first (h : heap) :
  heap_ok h ->
  (forall i f g p,
     podFuncs !! i = Some f -> podMetricFamilies !! i = Some g ->
     GenerateFunc g = wrapPodFunc f
     /\ exists ss,
          emits (f p) h ss
          /\ emits (GenerateFunc g (PodObj p)) h
               (map (withDefaults ["namespace"; "pod"]
                       [metav1.Namespace (v1.podMeta p); metav1.Name (v1.podMeta p)])
                    ss))
  /\ (forall i f g d,
        deploymentFuncs !! i = Some f -> deploymentMetricFamilies !! i = Some g ->
        GenerateFunc g = wrapDeploymentFunc f
        /\ ((exists ss,
               emits (f d) h ss
               /\ emits (GenerateFunc g (DeploymentObj d)) h
                    (map (withDefaults ["namespace"; "deployment"]
                            [ metav1.Namespace (v1beta1.depMeta d);
                              metav1.Name (v1beta1.depMeta d) ])
                         ss))
            \/ (exists msg,
                  f d h = Panic msg
                  /\ GenerateFunc g (DeploymentObj d) h = Panic msg)))
  /\ (forall i f g n,
        namespaceFuncs !! i = Some f -> namespaceMetricFamilies !! i = Some g ->
        GenerateFunc g = wrapNamespaceFunc f
        /\ exists ss,
             emits (f n) h ss
             /\ emits (GenerateFunc g (NamespaceObj n)) h
                  (map (withDefaults ["namespace"] [metav1.Name (v1.nsMeta n)]) ss)).
Proof.
  intros Hok. split; [|split].
  - intros i f g p Hf Hg.
    destruct (Forall2_lookup_l _ _ _ i f podFuncs_refine Hf) as (out & Hout & Href).
    assert (Hw : GenerateFunc g = wrapPodFunc f).
    { do 6 (destruct i as [|i];
            [injection Hf as <-; injection Hg as <-; reflexivity|]).
      discriminate. }
    assert (Hs : exists ss, out p = Some ss).
    { do 6 (destruct i as [|i]; [injection Hout as <-; eexists; reflexivity|]).
      discriminate. }
    destruct Hs as [ss Hs]. split; [exact Hw|]. exists ss.
    specialize (Href p). rewrite Hs in Href. rewrite Hw.
    split; apply yields_emits; [|apply wrapPodFunc_yields; [exact Hok|]];
      apply Href, Hok.
  - intros i f g d Hf Hg.
    destruct (Forall2_lookup_l _ _ _ i f deploymentFuncs_refine Hf)
      as (out & Hout & Href).
    assert (Hw : GenerateFunc g = wrapDeploymentFunc f).
    { do 6 (destruct i as [|i];
            [injection Hf as <-; injection Hg as <-; reflexivity|]).
      discriminate. }
    split; [exact Hw|]. rewrite Hw.
    specialize (Href d). destruct (out d) as [ss|].
    + left. exists ss.
      split; apply yields_emits; [|apply wrapDeploymentFunc_yields; [exact Hok|]];
        apply Href, Hok.
    + right. destruct Href as [msg Hp]. exists msg.
      split; [apply Hp|]. apply wrapDeploymentFunc_panics, Hp.
  - intros i f g n Hf Hg.
    destruct (Forall2_lookup_l _ _ _ i f namespaceFuncs_refine Hf)
      as (out & Hout & Href).
    assert (Hw : GenerateFunc g = wrapNamespaceFunc f).
    { do 2 (destruct i as [|i];
            [injection Hf as <-; injection Hg as <-; reflexivity|]).
      discriminate. }
    assert (Hs : exists ss, out n = Some ss).
    { do 2 (destruct i as [|i]; [injection Hout as <-; eexists; reflexivity|]).
      discriminate. }
    destruct Hs as [ss Hs]. split; [exact Hw|]. exists ss.
    specialize (Href n). rewrite Hs in Href. rewrite Hw.
    split; apply yields_emits; [|apply wrapNamespaceFunc_yields; [exact Hok|]];
      apply Href, Hok.
Qed.

(** ** Label keys and label values pair up *)

Lemma Forall_concat_map {A B} (P : B -> Prop) (F : A -> list B) (l : list A) :
  (forall x, Forall P (F x)) -> Forall P (concat (map F l)).
Proof.
  intros HF. induction l as [|x l IH]; simpl; [constructor|].
  apply Forall_app. split; [apply HF|exact IH].
Qed.

Lemma Forall_map_intro {A B} (P : B -> Prop) (f : A -> B) (l : list A) :
  (forall x, P (f x)) -> Forall P (map f l).
Proof. intros Hf. induction l; simpl; constructor; auto. Qed.

Lemma withDefaults_balanced keys values s :
  length keys = length values -> balanced s -> balanced (withDefaults keys values s).
Proof.
  unfold balanced, withDefaults. simpl. intros Hd Hs. rewrite !length_app. lia.
Qed.

Lemma Forall_withDefaults keys values ss :
  length keys = length values ->
  Forall balanced ss -> Forall balanced (map (withDefaults keys values) ss).
Proof.
  intros Hd Hss. induction Hss; simpl; constructor; [|assumption].
  apply withDefaults_balanced; assumption.
Qed.

Lemma podSamples_balanced :
  Forall (fun out => forall (p : v1.Pod) ss, out p = Some ss -> Forall balanced ss)
    podSamples.
Proof.
  repeat constructor; intros p ss [= <-].
  - repeat constructor.
  - unfold pod_owner_samples.
    destruct (metav1.OwnerReferences (v1.podMeta p)) as [|o os].
    + repeat constructor.
    + apply Forall_map_intro. intros x. reflexivity.
  - unfold pod_phase_samples. cbv zeta.
    destruct (String.eqb _ ""); repeat constructor.
  - apply Forall_concat_map. intros c.
    destruct (String.eqb _ _); repeat constructor.
  - apply Forall_concat_map. intros c.
    destruct (String.eqb _ _); repeat constructor.
  - apply Forall_concat_map. intros cs.
    apply Forall_map_intro. intros x. reflexivity.
Qed.

Lemma deploymentSamples_balanced :
  (forall m, length (fst (kubeLabelsToPrometheusLabels m))
             = length (snd (kubeLabelsToPrometheusLabels m))) ->
  Forall (fun out => forall (d : v1beta1.Deployment) ss,
            out d = Some ss -> Forall balanced ss)
    deploymentSamples.
Proof.
  intros Hl. repeat constructor; intros d ss.
  - intros [= <-]. unfold deployment_created_samples.
    destruct (negb _); repeat constructor.
  - intros [= <-]. repeat constructor.
  - intros [= <-]. repeat constructor.
  - intros [= <-]. repeat constructor.
  - destruct (v1beta1.specReplicas (v1beta1.Spec d)); [|discriminate].
    intros [= <-]. repeat constructor.
  - intros [= <-]. repeat constructor. apply Hl.
Qed.

Lemma namespaceSamples_balanced :
  (forall m, length (fst (kubeLabelsToPrometheusLabels m))
             = length (snd (kubeLabelsToPrometheusLabels m))) ->
  (forall m, length (fst (kubeAnnotationsToPrometheusAnnotations m))
             = length (snd (kubeAnnotationsToPrometheusAnnotations m))) ->
  Forall (fun out => forall (n : v1.Namespace) ss,
            out n = Some ss -> Forall balanced ss)
    namespaceSamples.
Proof.
  intros Hl Ha. repeat constructor; intros n ss [= <-]; repeat constructor.
  - apply Hl.
  - apply Ha.
Qed.

Lemma wrapped_balanced {A} (wrapS : (A -> option (list Sample)) -> Object -> option (list Sample))
  (proj : Object -> option A) keys (values : A -> list string) outs :
  (forall x, length keys = length (values x)) ->
  (forall out obj, wrapS out obj
                   = x ← proj obj; map (withDefaults keys (values x)) <$> out x) ->
  Forall (fun out => forall x ss, out x = Some ss -> Forall balanced ss) outs ->
  Forall (fun out => forall obj ss, out obj = Some ss -> Forall balanced ss)
    (map wrapS outs).
Proof.
  intros Hlen Hw HF. induction HF as [|out outs Hout HF IH]; simpl; constructor.
  - intros obj ss. rewrite Hw.
    destruct (proj obj) as [x|]; simpl; [|discriminate].
    destruct (out x) as [ss0|] eqn:Hx; simpl; [|discriminate].
    intros [= <-]. apply Forall_withDefaults; [apply Hlen|].
    apply (Hout x ss0 Hx).
  - exact IH.
Qed.

Lemma allSamples_balanced :
  (forall m, length (fst (kubeLabelsToPrometheusLabels m))
             = length (snd (kubeLabelsToPrometheusLabels m))) ->
  (forall m, length (fst (kubeAnnotationsToPrometheusAnnotations m))
             = length (snd (kubeAnnotationsToPrometheusAnnotations m))) ->
  Forall (fun out => forall (obj : Object) ss, out obj = Some ss -> Forall balanced ss)
    allSamples.
Proof.
  intros Hl Ha. unfold allSamples. repeat apply Forall_app_2.
  - apply (wrapped_balanced wrapPodSamples
             (fun obj => match obj with PodObj p => Some p | _ => None end)
             ["namespace"; "pod"] podDefaults).
    + reflexivity.
    + intros out [p|d|n]; reflexivity.
    + apply podSamples_balanced.
  - apply (wrapped_balanced wrapDeploymentSamples
             (fun obj => match obj with DeploymentObj d => Some d | _ => None end)
             ["namespace"; "deployment"] deploymentDefaults).
    + reflexivity.
    + intros out [p|d|n]; reflexivity.
    + apply deploymentSamples_balanced, Hl.
  - apply (wrapped_balanced wrapNamespaceSamples
             (fun obj => match obj with NamespaceObj n => Some n | _ => None end)
             ["namespace"] namespaceDefaults).
    + reflexivity.
    + intros out [p|d|n]; reflexivity.
    + apply namespaceSamples_balanced; assumption.
Qed.

(** C8: provided the two label-conversion helpers return as many keys as
    values, every sample of a registered pod, deployment or namespace
    function, before wrapping and after, has as many label keys as label
    values. *)
Theorem label_lists_paired (h : heap) :
  heap_ok h ->
  (forall m, length (fst (kubeLabelsToPrometheusLabels m))
             = length (snd (kubeLabelsToPrometheusLabels m))) ->
  (forall m, length (fst (kubeAnnotationsToPrometheusAnnotations m))
             = length (snd (kubeAnnotationsToPrometheusAnnotations m))) ->
  (forall i f p ss,
     podFuncs !! i = Some f -> emits (f p) h ss ->
     Forall (fun s => length (sKeys s) = length (sValues s)) ss)
  /\ (forall i f d ss,
        deploymentFuncs !! i = Some f -> emits (f d) h ss ->
        Forall (fun s => length (sKeys s) = length (sValues s)) ss)
  /\ (forall i f n ss,
        namespaceFuncs !! i = Some f -> emits (f n) h ss ->
        Forall (fun s => length (sKeys s) = length (sValues s)) ss)
  /\ (forall i g obj ss,
        allMetricFamilies !! i = Some g -> emits (GenerateFunc g obj) h ss ->
        Forall (fun s => length (sKeys s) = length (sValues s)) ss).
Proof.
  intros Hok Hl Ha. split; [|split; [|split]].
  - intros i f p ss Hf He.
    destruct (Forall2_lookup_l _ _ _ i f podFuncs_refine Hf) as (out & Hout & Href).
    apply (Forall_lookup_1 _ _ _ _ podSamples_balanced Hout p).
    eapply refines_emits; eassumption.
  - intros i f d ss Hf He.
    destruct (Forall2_lookup_l _ _ _ i f deploymentFuncs_refine Hf)
      as (out & Hout & Href).
    apply (Forall_lookup_1 _ _ _ _ (deploymentSamples_balanced Hl) Hout d).
    eapply refines_emits; eassumption.
  - intros i f n ss Hf He.
    destruct (Forall2_lookup_l _ _ _ i f namespaceFuncs_refine Hf)
      as (out & Hout & Href).
    apply (Forall_lookup_1 _ _ _ _ (namespaceSamples_balanced Hl Ha) Hout n).
    eapply refines_emits; eassumption.
  - intros i g obj ss Hg He.
    destruct (allMetricFamilies_lookup i g Hg) as (out & Hout & Href).
    apply (Forall_lookup_1 _ _ _ _ (allSamples_balanced Hl Ha) Hout obj).
    eapply refines_emits; eassumption.
Qed.

(** ** Further properties of the generators *)

Lemma wrapPodFunc_emits f p h ss :
  heap_ok h ->
  yields (f p) h ss ->
  emits (wrapPodFunc f (PodObj p)) h
    (map (withDefaults ["namespace"; "pod"] (podDefaults p)) ss).
Proof. intros Hok Hy. apply yields_emits, wrapPodFunc_yields; assumption. Qed.

Lemma wrapDeploymentFunc_emits f d h ss :
  heap_ok h ->
  yields (f d) h ss ->
  emits (wrapDeploymentFunc f (DeploymentObj d)) h
    (map (withDefaults ["namespace"; "deployment"] (deploymentDefaults d)) ss).
Proof. intros Hok Hy. apply yields_emits, wrapDeploymentFunc_yields; assumption. Qed.

Lemma wrapNamespaceFunc_emits f n h ss :
  heap_ok h ->
  yields (f n) h ss ->
  emits (wrapNamespaceFunc f (NamespaceObj n)) h
    (map (withDefaults ["namespace"] (namespaceDefaults n)) ss).
Proof. intros Hok Hy. apply yields_emits, wrapNamespaceFunc_yields; assumption. Qed.

(** X1: for a pod with a phase that is not pending deletion on an
    unreachable node, each of the five [kube_pod_status_phase] samples is
    1 exactly when its label is the pod's phase: one sample is 1 for the
    five known phases, none for any other phase string. *)
Theorem phase_sample_follows_phase (p : v1.Pod) (h : heap) :
  heap_ok h ->
  v1.Phase (v1.Status p) <> "" ->
  ~ (metav1.DeletionTimestamp (v1.podMeta p) <> None
     /\ v1.Reason (v1.Status p) = node.NodeUnreachablePodReason) ->
  emits (wrapPodFunc kube_pod_status_phase_func (PodObj p)) h
    (map (fun n =>
            mkSample "kube_pod_status_phase" ["namespace"; "pod"; "phase"]
              [metav1.Namespace (v1.podMeta p); metav1.Name (v1.podMeta p); n]
              (if String.eqb (v1.Phase (v1.Status p)) n then 1%float else 0%float))
       ["Pending"; "Succeeded"; "Failed"; "Running"; "Unknown"]).
Proof.
  intros Hok Hphase Hreach.
  pose proof (wrapPodFunc_emits _ p h _ Hok (kube_pod_status_phase_yields p h)) as He.
  unfold pod_phase_samples in He. cbv zeta in He.
  rewrite (proj2 (String.eqb_neq _ _) Hphase) in He.
  assert (Hu : bool_decide (metav1.DeletionTimestamp (v1.podMeta p) <> None)
               && String.eqb (v1.Reason (v1.Status p)) node.NodeUnreachablePodReason
               = false).
  { apply andb_false_iff.
    destruct (bool_decide_reflect (metav1.DeletionTimestamp (v1.podMeta p) <> None))
      as [Hd|Hd]; [|left; reflexivity].
    right. apply String.eqb_neq. intros Hr. apply Hreach. split; assumption. }
  rewrite Hu in He. simpl negb in He.
  rewrite andb_true_r, orb_false_r in He. exact He.
Qed.

(** X2: for a pod with a phase that is pending deletion with the
    unreachable-node reason, the Unknown sample is 1 and the Running
    sample is 0 whatever the phase, while the Pending, Succeeded and
    Failed samples still follow the phase: a failed pod on a lost node has
    both its Failed and its Unknown sample at 1. *)
Theorem phase_override_keeps_other_phases (p : v1.Pod) (h : heap) :
  heap_ok h ->
  v1.Phase (v1.Status p) <> "" ->
  metav1.DeletionTimestamp (v1.podMeta p) <> None ->
  v1.Reason (v1.Status p) = node.NodeUnreachablePodReason ->
  emits (wrapPodFunc kube_pod_status_phase_func (PodObj p)) h
    (map (fun nv : string * float64 =>
            mkSample "kube_pod_status_phase" ["namespace"; "pod"; "phase"]
              [metav1.Namespace (v1.podMeta p); metav1.Name (v1.podMeta p); fst nv]
              (snd nv))
       [ ("Pending",
          if String.eqb (v1.Phase (v1.Status p)) "Pending" then 1%float else 0%float);
         ("Succeeded",
          if String.eqb (v1.Phase (v1.Status p)) "Succeeded" then 1%float else 0%float);
         ("Failed",
          if String.eqb (v1.Phase (v1.Status p)) "Failed" then 1%float else 0%float);
         ("Running", 0%float);
         ("Unknown", 1%float) ]).
Proof.
  intros Hok Hphase Hdel Hreason.
  pose proof (wrapPodFunc_emits _ p h _ Hok (kube_pod_status_phase_yields p h)) as He.
  unfold pod_phase_samples in He. cbv zeta in He.
  rewrite (proj2 (String.eqb_neq _ _) Hphase) in He.
  rewrite Hreason, (bool_decide_eq_true_2 _ Hdel) in He.
  simpl andb in He. simpl negb in He.
  rewrite andb_false_r, orb_true_r in He. exact He.
Qed.

(** X3: [kube_pod_owner] never returns an empty family: a pod gets one
    sample when it has no owner reference and as many samples as owner
    references otherwise, all named kube_pod_owner and valued 1. *)
Theorem pod_owner_never_empty (p : v1.Pod) (h : heap) :
  heap_ok h ->
  exists ss,
    emits (wrapPodFunc kube_pod_owner_func (PodObj p)) h ss
    /\ length ss = Nat.max 1 (length (metav1.OwnerReferences (v1.podMeta p)))
    /\ Forall (fun s => sName s = "kube_pod_owner" /\ sValue s = 1%float) ss.
Proof.
  intros Hok.
  pose proof (wrapPodFunc_emits _ p h _ Hok (kube_pod_owner_yields p h)) as He.
  eexists. split; [exact He|].
  unfold pod_owner_samples.
  destruct (metav1.OwnerReferences (v1.podMeta p)) as [|o os].
  - split; [reflexivity|]. repeat constructor.
  - split.
    + rewrite !length_map. simpl. reflexivity.
    + rewrite map_map. apply Forall_map_intro. intros x. split; reflexivity.
Qed.

(** X4: [kube_pod_info] and [kube_pod_owner] agree on the controller: when
    the pod has a controlling owner reference, the owner family has a
    sample with that reference's kind and name and owner_is_controller
    "true"; when it has none, no owner sample says "true" and
    [kube_pod_info] reports "<none>" for both created_by labels. *)
Theorem pod_info_agrees_with_owner (p : v1.Pod) (h : heap) :
  heap_ok h ->
  exists info owners,
    emits (wrapPodFunc kube_pod_info_func (PodObj p)) h [info]
    /\ emits (wrapPodFunc kube_pod_owner_func (PodObj p)) h owners
    /\ (forall c,
          metav1.GetControllerOf (v1.podMeta p) = Some c ->
          exists s, s ∈ owners
                    /\ drop 2 (sValues s)
                       = [metav1.Kind c; metav1.ownerName c; "true"])
    /\ (metav1.GetControllerOf (v1.podMeta p) = None ->
        drop 6 (sValues info) = ["<none>"; "<none>"]
        /\ forall s, s ∈ owners -> drop 4 (sValues s) <> ["true"]).
Proof.
  intros Hok.
  pose proof (wrapPodFunc_emits _ p h _ Hok (kube_pod_info_yields p h)) as Hi.
  pose proof (wrapPodFunc_emits _ p h _ Hok (kube_pod_owner_yields p h)) as Ho.
  eexists _, _. split; [exact Hi|]. split; [exact Ho|].
  unfold metav1.GetControllerOf, pod_owner_samples, pod_info_samples.
  unfold metav1.GetControllerOf.
  split.
  - intros c Hc. apply find_some in Hc as [Hin Hctl].
    destruct (metav1.Controller c) as [[|]|] eqn:Hcc; try discriminate.
    destruct (metav1.OwnerReferences (v1.podMeta p)) as [|o os]; [destruct Hin|].
    exists (withDefaults ["namespace"; "pod"] (podDefaults p) (owner_sample c)).
    split.
    + apply list_elem_of_In, in_map, in_map. exact Hin.
    + unfold owner_sample. simpl. rewrite Hcc. reflexivity.
  - intros Hnone. rewrite Hnone. split; [reflexivity|].
    intros s Hs.
    destruct (metav1.OwnerReferences (v1.podMeta p)) as [|o os] eqn:Hos.
    + apply list_elem_of_singleton in Hs as ->. simpl. discriminate.
    + apply list_elem_of_In, in_map_iff in Hs as (s0 & <- & Hs0).
      apply in_map_iff in Hs0 as (x & <- & Hx).
      pose proof (find_none _ _ Hnone x Hx) as Hx'. simpl in Hx'.
      unfold owner_sample. simpl.
      destruct (metav1.Controller x) as [[|]|]; try discriminate; simpl; discriminate.
Qed.

(** X5: a pod without a condition of type Ready gets no
    [kube_pod_status_ready] sample, and a pod without a condition of type
    PodScheduled gets no [kube_pod_status_scheduled] sample, whatever its
    other conditions are. *)
Theorem condition_absent_no_sample (p : v1.Pod) (h : heap) :
  heap_ok h ->
  ((forall c, c ∈ v1.Conditions (v1.Status p) -> v1.Type_ c <> v1.PodReady) ->
   emits (wrapPodFunc kube_pod_status_ready_func (PodObj p)) h [])
  /\ ((forall c, c ∈ v1.Conditions (v1.Status p) -> v1.Type_ c <> v1.PodScheduled) ->
      emits (wrapPodFunc kube_pod_status_scheduled_func (PodObj p)) h []).
Proof.
  intros Hok. split; intros Hnone.
  - pose proof (wrapPodFunc_emits _ p h _ Hok (kube_pod_status_ready_yields p h)) as He.
    rewrite pod_condition_samples_none in He by exact Hnone. exact He.
  - pose proof (wrapPodFunc_emits _ p h _ Hok (kube_pod_status_scheduled_yields p h))
      as He.
    rewrite pod_condition_samples_none in He by exact Hnone. exact He.
Qed.

Lemma Forall2_map_self {A B} (P : A -> B -> Prop) (G : A -> B) (l : list A) :
  (forall x, P x (G x)) -> Forall2 P l (map G l).
Proof. intros HP. induction l; simpl; constructor; auto. Qed.

Lemma lookup_map_inv {A B} (f : A -> B) (l : list A) i y :
  map f l !! i = Some y -> exists x, l !! i = Some x /\ y = f x.
Proof.
  revert i. induction l as [|a l IH]; intros i Hi; [discriminate|].
  destruct i as [|i]; simpl in Hi.
  - injection Hi as <-. exists a. split; reflexivity.
  - apply IH. exact Hi.
Qed.

(** X6: the [kube_pod_container_status_waiting_reason] family is one
    group of five samples per container status, in the order of the
    statuses, each sample carrying the container's name; within a group
    at most one sample is 1. *)
Theorem waiting_reason_at_most_one (p : v1.Pod) (h : heap) :
  heap_ok h ->
  exists groups,
    emits (wrapPodFunc kube_pod_container_status_waiting_reason_func (PodObj p)) h
      (concat groups)
    /\ Forall2
         (fun cs g =>
            length g = 5
            /\ Forall (fun s => sValues s !! 2 = Some (v1.containerName cs)) g
            /\ forall i j s1 s2,
                 g !! i = Some s1 -> g !! j = Some s2 ->
                 sValue s1 = 1%float -> sValue s2 = 1%float -> i = j)
         (v1.ContainerStatuses (v1.Status p)) groups.
Proof.
  intros Hok.
  pose proof (wrapPodFunc_emits _ p h _ Hok
                (kube_pod_container_status_waiting_reason_yields p h Hok)) as He.
  unfold pod_waiting_reason_samples in He. rewrite concat_map, map_map in He.
  eexists. split; [exact He|].
  apply Forall2_map_self. intros cs.
  split; [reflexivity|]. split; [repeat constructor|].
  intros i j s1 s2 Hi Hj H1 H2.
  rewrite map_map in Hi, Hj.
  apply lookup_map_inv in Hi as (r1 & Hi & ->).
  apply lookup_map_inv in Hj as (r2 & Hj & ->).
  simpl in H1, H2. apply boolFloat64_one in H1, H2.
  unfold waitingReason in H1, H2.
  destruct (v1.Waiting (v1.State cs)); [|discriminate].
  apply String.eqb_eq in H1, H2.
  assert (Hnd : NoDup waitingReasons)
    by (apply (bool_decide_unpack _); vm_compute; exact I).
  eapply NoDup_lookup; [exact Hnd|exact Hi|]. rewrite <- H1, H2. exact Hj.
Qed.

(** The wrappers' loop on any family of distinct cells. *)
Lemma prepend_loop defaults values D fam h0 ss :
  s_len defaults = s_cap defaults ->
  elems h0 defaults = Some D ->
  NoDup fam ->
  loadFamily h0 fam = Some ss ->
  exists h',
    forRange fam (prependDefaults defaults values) tt h0 = Ok (tt, h')
    /\ loadFamily h' fam = Some (map (withDefaults D values) ss)
    /\ strs h0 `prefix_of` strs h'
    /\ length (mets h') = length (mets h0)
    /\ (forall q, q ∉ fam -> mets h' !! q = mets h0 !! q).
Proof.
  intros Hfull HD Hnd Hl.
  destruct (rewrites_loop (fun h => elems h defaults = Some D)
              (prependDefaults defaults values) (fun _ _ => tt)
              (withDefaults D values)) with
    (fam := fam) (h := h0) (ss := ss) (acc := tt)
    as (h' & Hr & Hp & Hn & Ho & HF).
  { intros. eapply elems_mono; eassumption. }
  { intros h1 m [] s HD1 Hs1. apply prependDefaults_spec; assumption. }
  { exact Hnd. }
  { exact HD. }
  { apply mapM_Some. exact Hl. }
  exists h'. split.
  { rewrite Hr. f_equal. f_equal. clear. induction fam; simpl; auto. }
  split; [apply mapM_Some; exact HF|]. split; [exact Hp|]. split; assumption.
Qed.

(** X7: around any function whose family lists distinct readable cells,
    each wrapper returns that very family; afterwards every cell of the
    family reads back with the kind's default labels in front, no metric
    cell outside the family has changed and no string cell has been
    overwritten. *)
Theorem wrappers_rewrite_only_the_family (h h0 : heap) (fam : metrics.Family)
  (ss : list Sample) :
  heap_ok h0 ->
  NoDup fam ->
  loadFamily h0 fam = Some ss ->
  (forall f p,
     f p h = Ok (fam, h0) ->
     exists h',
       wrapPodFunc f (PodObj p) h = Ok (fam, h')
       /\ loadFamily h' fam
          = Some (map (withDefaults ["namespace"; "pod"]
                         [metav1.Namespace (v1.podMeta p); metav1.Name (v1.podMeta p)])
                      ss)
       /\ strs h0 `prefix_of` strs h'
       /\ length (mets h') = length (mets h0)
       /\ (forall q, q ∉ fam -> mets h' !! q = mets h0 !! q))
  /\ (forall f d,
        f d h = Ok (fam, h0) ->
        exists h',
          wrapDeploymentFunc f (DeploymentObj d) h = Ok (fam, h')
          /\ loadFamily h' fam
             = Some (map (withDefaults ["namespace"; "deployment"]
                            [ metav1.Namespace (v1beta1.depMeta d);
                              metav1.Name (v1beta1.depMeta d) ])
                         ss)
          /\ strs h0 `prefix_of` strs h'
          /\ length (mets h') = length (mets h0)
          /\ (forall q, q ∉ fam -> mets h' !! q = mets h0 !! q))
  /\ (forall f n,
        f n h = Ok (fam, h0) ->
        exists h',
          wrapNamespaceFunc f (NamespaceObj n) h = Ok (fam, h')
          /\ loadFamily h' fam
             = Some (map (withDefaults ["namespace"] [metav1.Name (v1.nsMeta n)]) ss)
          /\ strs h0 `prefix_of` strs h'
          /\ length (mets h') = length (mets h0)
          /\ (forall q, q ∉ fam -> mets h' !! q = mets h0 !! q)).
Proof.
  intros Hok Hnd Hl. split; [|split].
  - intros f p Hf.
    destruct (prepend_loop descPodLabelsDefaultLabels (podDefaults p)
                ["namespace"; "pod"] fam h0 ss eq_refl)
      as (h' & Hr & Hrest); try assumption.
    { apply elems_global; [exact Hok|reflexivity]. }
    exists h'. split; [|exact Hrest].
    unfold wrapPodFunc. rewrite (bind_ok _ _ _ _ _ Hf).
    fold (prependDefaults descPodLabelsDefaultLabels (podDefaults p)).
    rewrite (bind_ok _ _ _ _ _ Hr). reflexivity.
  - intros f d Hf.
    destruct (prepend_loop descDeploymentLabelsDefaultLabels (deploymentDefaults d)
                ["namespace"; "deployment"] fam h0 ss eq_refl)
      as (h' & Hr & Hrest); try assumption.
    { apply elems_global; [exact Hok|reflexivity]. }
    exists h'. split; [|exact Hrest].
    unfold wrapDeploymentFunc. rewrite (bind_ok _ _ _ _ _ Hf).
    fold (prependDefaults descDeploymentLabelsDefaultLabels (deploymentDefaults d)).
    rewrite (bind_ok _ _ _ _ _ Hr). reflexivity.
  - intros f n Hf.
    destruct (prepend_loop descNamespaceLabelsDefaultLabels (namespaceDefaults n)
                ["namespace"] fam h0 ss eq_refl)
      as (h' & Hr & Hrest); try assumption.
    { apply elems_global; [exact Hok|reflexivity]. }
    exists h'. split; [|exact Hrest].
    unfold wrapNamespaceFunc. rewrite (bind_ok _ _ _ _ _ Hf).
    fold (prependDefaults descNamespaceLabelsDefaultLabels (namespaceDefaults n)).
    rewrite (bind_ok _ _ _ _ _ Hr). reflexivity.
Qed.

(** X8: the wrapper prepends once per occurrence, not once per cell: when
    the function's family lists the same cell twice, that cell ends up
    with the default labels in front twice. *)
Theorem wrapper_prepends_per_occurrence (f : v1.Pod -> M metrics.Family)
  (p : v1.Pod) (h h0 : heap) (m : nat) (s : Sample) :
  f p h = Ok ([m; m], h0) ->
  heap_ok h0 ->
  loadSample h0 m = Some s ->
  exists h',
    wrapPodFunc f (PodObj p) h = Ok ([m; m], h')
    /\ loadSample h' m
       = Some (mkSample (sName s)
                 (["namespace"; "pod"] ++ ["namespace"; "pod"] ++ sKeys s)
                 ([metav1.Namespace (v1.podMeta p); metav1.Name (v1.podMeta p)]
                  ++ [metav1.Namespace (v1.podMeta p); metav1.Name (v1.podMeta p)]
                  ++ sValues s)
                 (sValue s)).
Proof.
  intros Hf Hok Hs.
  assert (HD : elems h0 descPodLabelsDefaultLabels = Some ["namespace"; "pod"])
    by (apply elems_global; [exact Hok|reflexivity]).
  destruct (prependDefaults_spec descPodLabelsDefaultLabels (podDefaults p)
              ["namespace"; "pod"] h0 m s eq_refl HD Hs)
    as (h1 & Hb1 & Hp1 & _ & _ & Hl1).
  assert (HD1 : elems h1 descPodLabelsDefaultLabels = Some ["namespace"; "pod"])
    by (eapply elems_mono; eassumption).
  destruct (prependDefaults_spec descPodLabelsDefaultLabels (podDefaults p)
              ["namespace"; "pod"] h1 m _ eq_refl HD1 Hl1)
    as (h2 & Hb2 & _ & _ & _ & Hl2).
  exists h2. split; [|exact Hl2].
  unfold wrapPodFunc. rewrite (bind_ok _ _ _ _ _ Hf).
  fold (prependDefaults descPodLabelsDefaultLabels (podDefaults p)).
  assert (Hloop : forRange [m; m]
                    (prependDefaults descPodLabelsDefaultLabels (podDefaults p)) tt h0
                  = Ok (tt, h2)).
  { simpl. rewrite (bind_ok _ _ _ _ _ Hb1), (bind_ok _ _ _ _ _ Hb2). reflexivity. }
  rewrite (bind_ok _ _ _ _ _ Hloop). reflexivity.
Qed.

(** X9: a deployment whose creation timestamp is not the zero time gets
    exactly one [kube_deployment_created] sample, labelled by namespace
    and deployment only, whose value is the timestamp's Unix seconds (its
    seconds since year 1 less 62135596800); the nanoseconds decide only
    whether the time is zero, not the value. *)
Theorem deployment_created_unix_seconds (d : v1beta1.Deployment) (h : heap) :
  heap_ok h ->
  metav1.sec (metav1.CreationTimestamp (v1beta1.depMeta d)) <> 0%Z
  \/ metav1.nsec (metav1.CreationTimestamp (v1beta1.depMeta d)) <> 0%Z ->
  emits (wrapDeploymentFunc kube_deployment_created_func (DeploymentObj d)) h
    [ mkSample "kube_deployment_created" ["namespace"; "deployment"]
        [metav1.Namespace (v1beta1.depMeta d); metav1.Name (v1beta1.depMeta d)]
        (float64_of_int
           (metav1.sec (metav1.CreationTimestamp (v1beta1.depMeta d))
            - 62135596800)) ].
Proof.
  intros Hok Hnz.
  pose proof (wrapDeploymentFunc_emits _ d h _ Hok
                (kube_deployment_created_yields d h)) as He.
  unfold deployment_created_samples in He.
  assert (Hz : metav1.IsZero (metav1.CreationTimestamp (v1beta1.depMeta d)) = false).
  { unfold metav1.IsZero. apply andb_false_iff.
    destruct Hnz as [Hs|Hn]; [left|right]; apply Z.eqb_neq; assumption. }
  rewrite Hz in He. exact He.
Qed.

(** X10: every deployment gets exactly one sample from each of the three
    status generators, and one from [kube_deployment_spec_replicas] when
    [Spec.Replicas] is set; each is labelled by namespace and deployment
    only and carries the converted field. *)
Theorem deployment_replica_samples (d : v1beta1.Deployment) (h : heap) :
  heap_ok h ->
  emits (wrapDeploymentFunc kube_deployment_status_replicas_func (DeploymentObj d)) h
    [ mkSample "kube_deployment_status_replicas" ["namespace"; "deployment"]
        [metav1.Namespace (v1beta1.depMeta d); metav1.Name (v1beta1.depMeta d)]
        (float64_of_int (v1beta1.Replicas (v1beta1.Status d))) ]
  /\ emits (wrapDeploymentFunc kube_deployment_status_replicas_available_func
              (DeploymentObj d)) h
       [ mkSample "kube_deployment_status_replicas_available"
           ["namespace"; "deployment"]
           [metav1.Namespace (v1beta1.depMeta d); metav1.Name (v1beta1.depMeta d)]
           (float64_of_int (v1beta1.AvailableReplicas (v1beta1.Status d))) ]
  /\ emits (wrapDeploymentFunc kube_deployment_status_replicas_unavailable_func
              (DeploymentObj d)) h
       [ mkSample "kube_deployment_status_replicas_unavailable"
           ["namespace"; "deployment"]
           [metav1.Namespace (v1beta1.depMeta d); metav1.Name (v1beta1.depMeta d)]
           (float64_of_int (v1beta1.UnavailableReplicas (v1beta1.Status d))) ]
  /\ (forall replicas,
        v1beta1.specReplicas (v1beta1.Spec d) = Some replicas ->
        emits (wrapDeploymentFunc kube_deployment_spec_replicas_func (DeploymentObj d)) h
          [ mkSample "kube_deployment_spec_replicas" ["namespace"; "deployment"]
              [metav1.Namespace (v1beta1.depMeta d); metav1.Name (v1beta1.depMeta d)]
              (float64_of_int replicas) ]).
Proof.
  intros Hok. split; [|split; [|split]].
  - exact (wrapDeploymentFunc_emits _ d h _ Hok (yieldsFrom_plain [] h _ _)).
  - exact (wrapDeploymentFunc_emits _ d h _ Hok (yieldsFrom_plain [] h _ _)).
  - exact (wrapDeploymentFunc_emits _ d h _ Hok (yieldsFrom_plain [] h _ _)).
  - intros replicas Hr.
    assert (Hy : yields (kube_deployment_spec_replicas_func d) h
                   [mkSample "kube_deployment_spec_replicas" [] []
                      (float64_of_int replicas)]).
    { unfold kube_deployment_spec_replicas_func. rewrite Hr.
      exact (yieldsFrom_plain [] h _ _). }
    exact (wrapDeploymentFunc_emits _ d h _ Hok Hy).
Qed.

(** X11: each of the three label generators gives every object exactly
    one sample, valued 1: the default labels followed by the keys and
    values the conversion helper returns, for the deployment's labels,
    the namespace's labels and the namespace's annotations; a namespace is
    identified by its name alone. *)
Theorem label_generators_one_sample (h : heap) :
  heap_ok h ->
  (forall d,
     emits (wrapDeploymentFunc kube_deployment_labels_func (DeploymentObj d)) h
       [ mkSample "kube_deployment_labels"
           (["namespace"; "deployment"]
            ++ fst (kubeLabelsToPrometheusLabels (metav1.Labels (v1beta1.depMeta d))))
           ([metav1.Namespace (v1beta1.depMeta d); metav1.Name (v1beta1.depMeta d)]
            ++ snd (kubeLabelsToPrometheusLabels (metav1.Labels (v1beta1.depMeta d))))
           1%float ])
  /\ (forall n,
        emits (wrapNamespaceFunc kube_namespace_labels_func (NamespaceObj n)) h
          [ mkSample "kube_namespace_labels"
              (["namespace"]
               ++ fst (kubeLabelsToPrometheusLabels (metav1.Labels (v1.nsMeta n))))
              ([metav1.Name (v1.nsMeta n)]
               ++ snd (kubeLabelsToPrometheusLabels (metav1.Labels (v1.nsMeta n))))
              1%float ])
  /\ (forall n,
        emits (wrapNamespaceFunc kube_namespace_annotations_func (NamespaceObj n)) h
          [ mkSample "kube_namespace_annotations"
              (["namespace"]
               ++ fst (kubeAnnotationsToPrometheusAnnotations
                         (metav1.Annotations (v1.nsMeta n))))
              ([metav1.Name (v1.nsMeta n)]
               ++ snd (kubeAnnotationsToPrometheusAnnotations
                         (metav1.Annotations (v1.nsMeta n))))
              1%float ]).
Proof.
  intros Hok. split; [|split].
  - intros d.
    exact (wrapDeploymentFunc_emits kube_deployment_labels_func d h _ Hok
             (kube_labels_yields _ _ h)).
  - intros n.
    exact (wrapNamespaceFunc_emits kube_namespace_labels_func n h _ Hok
             (kube_labels_yields _ _ h)).
  - intros n.
    exact (wrapNamespaceFunc_emits kube_namespace_annotations_func n h _ Hok
             (kube_labels_yields _ _ h)).
Qed.

(** X12: a registered generator that returns has touched no cell that
    existed before the call, and the family it returns is exactly the
    metric cells it allocated, in allocation order; so no cell occurs
    twice in a family and two calls never share a cell. *)
Theorem generators_return_what_they_allocate (i : nat) (g : FamilyGenerator)
  (obj : Object) (h h1 : heap) (fam : metrics.Family) :
  heap_ok h ->
  allMetricFamilies !! i = Some g ->
  GenerateFunc g obj h = Ok (fam, h1) ->
  extends h h1
  /\ fam = seq (length (mets h)) (length (mets h1) - length (mets h))
  /\ NoDup fam
  /\ forall fam2 h2,
       GenerateFunc g obj h1 = Ok (fam2, h2) -> forall m, m ∈ fam -> m ∉ fam2.
Proof.
  intros Hok Hg Hrun.
  destruct (allMetricFamilies_lookup i g Hg) as (out & _ & Href).
  specialize (Href obj). destruct (out obj) as [ss|].
  - destruct (Href h Hok) as (h1' & Hc & He & Hn & _).
    rewrite Hrun in Hc. simpl in Hc. injection Hc as -> <-.
    split; [exact He|]. split; [f_equal; lia|]. split; [apply NoDup_seq|].
    intros fam2 h2 Hrun2 m Hm.
    destruct (Href h1 (heap_ok_extends _ _ Hok He)) as (h2' & Hc2 & _ & _ & _).
    rewrite Hrun2 in Hc2. simpl in Hc2. injection Hc2 as -> _.
    rewrite elem_of_seq in Hm. rewrite elem_of_seq. lia.
  - destruct Href as [msg Hp]. rewrite Hp in Hrun. discriminate.
Qed.

(** A property of the samples of every registered generator follows from
    the property of the sample lists the generators refine. *)
Lemma registry_invariant (P : FamilyGenerator -> Sample -> Prop) :
  Forall2 (fun g out => forall obj ss, out obj = Some ss -> Forall (P g) ss)
    allMetricFamilies allSamples ->
  forall i g obj h ss,
    heap_ok h ->
    allMetricFamilies !! i = Some g ->
    emits (GenerateFunc g obj) h ss ->
    Forall (P g) ss.
Proof.
  intros HF i g obj h ss Hok Hg He.
  destruct (allMetricFamilies_lookup i g Hg) as (out & Hout & Href).
  destruct (Forall2_lookup_l _ _ _ i g HF Hg) as (out' & Hout' & HP).
  rewrite Hout in Hout'. injection Hout' as <-.
  apply (HP obj). eapply refines_emits; eassumption.
Qed.

Lemma Forall_map_pre {A B} (P : B -> Prop) (f : A -> B) (l : list A) :
  Forall (fun x => P (f x)) l -> Forall P (map f l).
Proof. induction 1; simpl; constructor; assumption. Qed.

Ltac registry_cases :=
  unfold allMetricFamilies, allSamples, podMetricFamilies, podSamples,
    deploymentMetricFamilies, deploymentSamples, namespaceMetricFamilies,
    namespaceSamples;
  cbn [app map];
  repeat (once constructor);
  intros [x_p|x_d|x_n] x_ss Hx;
  cbn [wrapPodSamples wrapDeploymentSamples wrapNamespaceSamples] in Hx;
  try discriminate Hx;
  try (destruct (v1beta1.specReplicas (v1beta1.Spec x_d)); [|discriminate Hx]);
  cbn [fmap option_fmap option_map] in Hx;
  apply (inj Some) in Hx; subst x_ss;
  apply Forall_map_pre.

Ltac sample_cases :=
  unfold pod_info_samples, pod_owner_samples, pod_phase_samples,
    pod_condition_samples, pod_waiting_reason_samples,
    deployment_created_samples, condition_samples;
  cbv zeta;
  repeat first
    [ match goal with |- Forall _ [] => once constructor end
    | apply Forall_concat_map; intros ?
    | apply Forall_map_intro; intros ?
    | match goal with
      | |- Forall _ (if ?b then _ else _) => destruct b
      | |- Forall _ (match ?l with [] => _ | _ :: _ => _ end) => destruct l
      | |- Forall _ (_ :: _) => once constructor
      end ].

(** X13: every sample a registered generator returns is named after the
    generator: the name of the metric cell is the [Name] the generator is
    registered under, for all fourteen generators and every object. *)
Theorem samples_named_after_generator (i : nat) (g : FamilyGenerator) (obj : Object)
  (h : heap) (ss : list Sample) :
  heap_ok h ->
  allMetricFamilies !! i = Some g ->
  emits (GenerateFunc g obj) h ss ->
  Forall (fun s => sName s = genName g) ss.
Proof.
  apply (registry_invariant (fun g s => sName s = genName g)).
  registry_cases; sample_cases; reflexivity.
Qed.

(** X14: no sample of a generator other than the three label and
    annotation generators carries a label key twice. *)
Theorem label_keys_distinct (i : nat) (g : FamilyGenerator) (obj : Object)
  (h : heap) (ss : list Sample) :
  heap_ok h ->
  allMetricFamilies !! i = Some g ->
  genName g ∉ [ descDeploymentLabelsName; descNamespaceLabelsName;
                descNamespaceAnnotationsName ] ->
  emits (GenerateFunc g obj) h ss ->
  Forall (fun s => NoDup (sKeys s)) ss.
Proof.
  intros Hok Hg Hname He.
  pose proof (registry_invariant
                (fun g s => genName g ∉ [ descDeploymentLabelsName;
                                          descNamespaceLabelsName;
                                          descNamespaceAnnotationsName ] ->
                            NoDup (sKeys s))) as HR.
  eapply Forall_impl; [eapply HR; [|eassumption..]|].
  - registry_cases; sample_cases; cbn [genName]; intros Hn;
      first [ apply (bool_decide_unpack _); vm_compute; exact I
            | exfalso; apply Hn; repeat constructor ].
  - cbv beta. intros s Hs. apply Hs, Hname.
Qed.

(** X15: every sample of a pod generator is valued 0 or 1. *)
Theorem pod_samples_are_indicators (i : nat) (g : FamilyGenerator) (p : v1.Pod)
  (h : heap) (ss : list Sample) :
  heap_ok h ->
  podMetricFamilies !! i = Some g ->
  emits (GenerateFunc g (PodObj p)) h ss ->
  Forall (fun s => sValue s = 0%float \/ sValue s = 1%float) ss.
Proof.
  intros Hok Hg He.
  assert (Hname : genName g ∈ map genName podMetricFamilies).
  { apply list_elem_of_In, in_map, list_elem_of_In.
    eapply list_elem_of_lookup_2. exact Hg. }
  assert (Hg' : allMetricFamilies !! i = Some g)
    by (unfold allMetricFamilies; apply lookup_app_l_Some; exact Hg).
  pose proof (registry_invariant
                (fun g s => genName g ∈ map genName podMetricFamilies ->
                            sValue s = 0%float \/ sValue s = 1%float)) as HR.
  eapply Forall_impl; [eapply HR; [|eassumption..]|].
  - registry_cases; sample_cases; cbn [genName]; intros Hn;
      first [ right; reflexivity
            | unfold withDefaults, phase_sample, waiting_reason_sample, boolFloat64;
              cbn [sValue];
              match goal with
              | |- context [if ?b then _ else _] => destruct b
              end; [right|left]; reflexivity
            | exfalso; revert Hn;
              apply (bool_decide_unpack (_ ∉ _)); vm_compute; exact I ].
  - cbv beta. intros s Hs. apply Hs, Hname.
Qed.

Lemma appendStrings_nothing s h :
  s_len s <= s_cap s -> appendStrings s [] h = Ok (s, h).
Proof.
  intros Hcap. unfold appendStrings. cbv zeta. simpl length.
  rewrite Nat.add_0_r, decide_True by assumption.
  destruct s, h. reflexivity.
Qed.

(** X16: when the function sets no label keys, the wrapper makes no copy
    of the default keys: after [wrapDeploymentFunc] the cell of a
    [kube_deployment_status_replicas] sample has the package-level slice
    [descDeploymentLabelsDefaultLabels] itself as its [LabelKeys], while
    its [LabelValues] are in cells allocated by the call. *)
Theorem plain_sample_shares_default_keys (d : v1beta1.Deployment) (h : heap) :
  heap_ok h ->
  exists m h' cell,
    wrapDeploymentFunc kube_deployment_status_replicas_func (DeploymentObj d) h
    = Ok ([m], h')
    /\ mets h' !! m = Some cell
    /\ metrics.LabelKeys cell = descDeploymentLabelsDefaultLabels
    /\ length (strs h) <= s_ptr (metrics.LabelValues cell).
Proof.
  intros Hok.
  set (n := length (mets h)).
  set (c0 := {| metrics.Name := "kube_deployment_status_replicas";
                metrics.LabelKeys := nilSlice;
                metrics.LabelValues := nilSlice;
                metrics.Value :=
                  float64_of_int (v1beta1.Replicas (v1beta1.Status d)) |}).
  set (h0 := mkHeap (strs h) (mets h ++ [c0])).
  set (c1 := {| metrics.Name := metrics.Name c0;
                metrics.LabelKeys := descDeploymentLabelsDefaultLabels;
                metrics.LabelValues := metrics.LabelValues c0;
                metrics.Value := metrics.Value c0 |}).
  set (h1 := mkHeap (strs h0) (<[n := c1]> (mets h0))).
  set (dv := mkSlice (length (strs h1)) 2 2).
  set (h2 := mkHeap (strs h1 ++ deploymentDefaults d) (mets h1)).
  set (c2 := {| metrics.Name := metrics.Name c1;
                metrics.LabelKeys := metrics.LabelKeys c1;
                metrics.LabelValues := dv;
                metrics.Value := metrics.Value c1 |}).
  set (h3 := mkHeap (strs h2) (<[n := c2]> (mets h2))).
  assert (Hm0 : mets h0 !! n = Some c0) by (apply list_lookup_middle; reflexivity).
  assert (Hn : n < length (mets h0))
    by (eapply lookup_lt_Some; exact Hm0).
  assert (Hm2 : mets h2 !! n = Some c1) by (apply list_lookup_insert_eq; exact Hn).
  assert (Hbody : prependDefaults descDeploymentLabelsDefaultLabels
                    (deploymentDefaults d) n tt h0 = Ok (tt, h3)).
  { unfold prependDefaults.
    rewrite (bind_ok _ _ _ _ _ (getLabelKeys_ok h0 n c0 Hm0)).
    rewrite (bind_ok _ _ _ _ _ (readSlice_ok h0 _ [] (elems_nil h0))).
    rewrite (bind_ok _ _ h0 descDeploymentLabelsDefaultLabels h0)
      by (apply appendStrings_nothing; reflexivity).
    rewrite (bind_ok _ _ _ _ _ (setLabelKeys_ok h0 n c0 _ Hm0)).
    fold c1. fold h1.
    rewrite (bind_ok _ _ h1 dv h2) by reflexivity.
    rewrite (bind_ok _ _ _ _ _ (getLabelValues_ok h2 n c1 Hm2)).
    rewrite (bind_ok _ _ _ _ _ (readSlice_ok h2 _ [] (elems_nil h2))).
    rewrite (bind_ok _ _ h2 dv h2) by (apply appendStrings_nothing; reflexivity).
    apply (setLabelValues_ok h2 n c1 dv Hm2). }
  exists n, h3, c2. split.
  { unfold wrapDeploymentFunc.
    rewrite (bind_ok _ _ h [n] h0) by reflexivity.
    fold (prependDefaults descDeploymentLabelsDefaultLabels (deploymentDefaults d)).
    simpl forRange. rewrite (bind_ok _ _ _ _ _ (bind_ok _ _ _ _ _ Hbody)).
    reflexivity. }
  split; [apply list_lookup_insert_eq; simpl; rewrite length_insert; exact Hn|].
  split; [reflexivity|]. simpl. lia.
Qed.

(** X17: of the reasons in [containerTerminatedReasons] at most one
    satisfies [terminationReason] for a container status, and at most one
    satisfies [lastTerminationReason]; none does when the respective
    [Terminated] pointer is nil, and the two look at different states. *)
Theorem termination_reason_at_most_one (cs : v1.ContainerStatus) (h : heap) :
  heap_ok h ->
  exists reasons,
    elems h containerTerminatedReasons = Some reasons
    /\ (forall i j r1 r2,
          reasons !! i = Some r1 -> reasons !! j = Some r2 ->
          terminationReason cs r1 = true -> terminationReason cs r2 = true -> i = j)
    /\ (forall i j r1 r2,
          reasons !! i = Some r1 -> reasons !! j = Some r2 ->
          lastTerminationReason cs r1 = true -> lastTerminationReason cs r2 = true ->
          i = j)
    /\ (v1.Terminated (v1.State cs) = None ->
        forall r, terminationReason cs r = false)
    /\ (v1.Terminated (v1.LastTerminationState cs) = None ->
        forall r, lastTerminationReason cs r = false).
Proof.
  intros Hok.
  exists ["OOMKilled"; "Completed"; "Error"; "ContainerCannotRun"].
  assert (Hnd : NoDup ["OOMKilled"; "Completed"; "Error"; "ContainerCannotRun"])
    by (apply (bool_decide_unpack _); vm_compute; exact I).
  split; [apply elems_global; [exact Hok|reflexivity]|].
  split; [|split; [|split]].
  - intros i j r1 r2 Hi Hj H1 H2. unfold terminationReason in H1, H2.
    destruct (v1.Terminated (v1.State cs)); [|discriminate].
    apply String.eqb_eq in H1, H2.
    eapply NoDup_lookup; [exact Hnd|exact Hi|]. rewrite <- H1, H2. exact Hj.
  - intros i j r1 r2 Hi Hj H1 H2. unfold lastTerminationReason in H1, H2.
    destruct (v1.Terminated (v1.LastTerminationState cs)); [|discriminate].
    apply String.eqb_eq in H1, H2.
    eapply NoDup_lookup; [exact Hnd|exact Hi|]. rewrite <- H1, H2. exact Hj.
  - intros Hn r. unfold terminationReason. rewrite Hn. reflexivity.
  - intros Hn r. unfold lastTerminationReason. rewrite Hn. reflexivity.
Qed.

End Collectors.

(** ** The claims at concrete objects

    Each theorem with a hypothesis is applied to the example objects in
    the store the package starts with, with [exampleSlack] for the
    runtime's spare capacity and [exampleLabels] for the two label
    helpers. *)

Lemma phase_unreachable_is_unknown_witness :
  emits (wrapPodFunc exampleSlack kube_pod_status_phase_func (PodObj examplePod))
    init_heap
    [ mkSample "kube_pod_status_phase" ["namespace"; "pod"; "phase"]
        ["default"; "web-0"; "Pending"] 0%float;
      mkSample "kube_pod_status_phase" ["namespace"; "pod"; "phase"]
        ["default"; "web-0"; "Succeeded"] 0%float;
      mkSample "kube_pod_status_phase" ["namespace"; "pod"; "phase"]
        ["default"; "web-0"; "Failed"] 0%float;
      mkSample "kube_pod_status_phase" ["namespace"; "pod"; "phase"]
        ["default"; "web-0"; "Running"] 0%float;
      mkSample "kube_pod_status_phase" ["namespace"; "pod"; "phase"]
        ["default"; "web-0"; "Unknown"] 1%float ].
Proof.
  apply (phase_unreachable_is_unknown exampleSlack examplePod init_heap).
  - unfold heap_ok. reflexivity.
  - reflexivity.
  - simpl. discriminate.
  - reflexivity.
Defined.

Lemma default_labels_first_witness :
  exists ss,
    emits (kube_pod_info_func examplePod) init_heap ss
    /\ emits (wrapPodFunc exampleSlack kube_pod_info_func (PodObj examplePod))
         init_heap
         (map (withDefaults ["namespace"; "pod"] ["default"; "web-0"]) ss).
Proof.
  destruct (default_labels_first exampleSlack exampleLabels exampleLabels init_heap)
    as [Hpod _].
  - unfold heap_ok. reflexivity.
  - destruct (Hpod 0 kube_pod_info_func _ examplePod eq_refl eq_refl) as [_ Hss].
    exact Hss.
Defined.



Lemma waiting_reason_enumerated_witness :
  exists ss,
    emits (wrapPodFunc exampleSlack kube_pod_container_status_waiting_reason_func
             (PodObj examplePod)) init_heap ss
    /\ map sValues ss
       = [ ["default"; "web-0"; "app"; "ContainerCreating"];
           ["default"; "web-0"; "app"; "CrashLoopBackOff"];
           ["default"; "web-0"; "app"; "CreateContainerConfigError"];
           ["default"; "web-0"; "app"; "ErrImagePull"];
           ["default"; "web-0"; "app"; "ImagePullBackOff"];
           ["default"; "web-0"; "sidecar"; "ContainerCreating"];
           ["default"; "web-0"; "sidecar"; "CrashLoopBackOff"];
           ["default"; "web-0"; "sidecar"; "CreateContainerConfigError"];
           ["default"; "web-0"; "sidecar"; "ErrImagePull"];
           ["default"; "web-0"; "sidecar"; "ImagePullBackOff"] ]
    /\ map sValue ss
       = [ 0%float; 0%float; 0%float; 1%float; 0%float;
           0%float; 0%float; 0%float; 0%float; 0%float ].
Proof.
  destruct (waiting_reason_enumerated exampleSlack examplePod init_heap)
    as (_ & He & _).
  - unfold heap_ok. reflexivity.
  - eexists. split; [exact He|]. split; reflexivity.
Defined.

Lemma pod_owner_sample_per_reference_witness :
  emits (wrapPodFunc exampleSlack kube_pod_owner_func (PodObj examplePod)) init_heap
    [ mkSample "kube_pod_owner"
        ["namespace"; "pod"; "owner_kind"; "owner_name"; "owner_is_controller"]
        ["default"; "web-0"; "ReplicaSet"; "web"; "true"] 1%float;
      mkSample "kube_pod_owner"
        ["namespace"; "pod"; "owner_kind"; "owner_name"; "owner_is_controller"]
        ["default"; "web-0"; "Job"; "backup"; "false"] 1%float ]
  /\ emits (wrapPodFunc exampleSlack kube_pod_owner_func (PodObj examplePendingPod))
       init_heap
       [ mkSample "kube_pod_owner"
           ["namespace"; "pod"; "owner_kind"; "owner_name"; "owner_is_controller"]
           ["default"; "orphan"; "<none>"; "<none>"; "<none>"] 1%float ].
Proof.
  split.
  - apply (pod_owner_sample_per_reference exampleSlack examplePod init_heap).
    + unfold heap_ok. reflexivity.
    + simpl. discriminate.
  - apply (pod_owner_sample_per_reference exampleSlack examplePendingPod init_heap).
    + unfold heap_ok. reflexivity.
    + reflexivity.
Defined.

Lemma condition_three_samples_witness :
  emits (wrapPodFunc exampleSlack kube_pod_status_ready_func (PodObj examplePod))
    init_heap
    (tristate examplePod "kube_pod_status_ready" 0%float 1%float 0%float).
Proof.
  destruct (condition_three_samples exampleSlack examplePod init_heap
              [ {| v1.Type_ := "Initialized"; v1.condStatus := "True" |} ]
              [ {| v1.Type_ := "PodScheduled"; v1.condStatus := "True" |} ]
              {| v1.Type_ := "Ready"; v1.condStatus := "False" |})
    as [Hready _].
  - unfold heap_ok. reflexivity.
  - reflexivity.
  - right. left. reflexivity.
  - destruct (Hready eq_refl) as (before & after & vt & vf & vu & He & Hhot & Honly).
    destruct Honly as [-> ->].
    { intros c' Hc'. simpl in Hc'.
      apply elem_of_cons in Hc' as [-> | Hc']; [simpl; discriminate|].
      apply list_elem_of_singleton in Hc' as ->. simpl. discriminate. }
    rewrite app_nil_r in He. simpl in He.
    destruct Hhot as [(Hs & _) | [(_ & -> & -> & ->) | (Hs & _)]];
      [discriminate Hs | exact He | discriminate Hs].
Defined.

Lemma label_lists_paired_witness :
  Forall (fun s => length (sKeys s) = length (sValues s))
    [ mkSample "kube_namespace_labels" ["namespace"; "label_app"] ["default"; "web"]
        1%float ].
Proof.
  destruct (label_lists_paired exampleSlack exampleLabels exampleLabels init_heap)
    as (_ & _ & _ & Hall).
  - unfold heap_ok. reflexivity.
  - intros m. unfold exampleLabels. simpl. rewrite !length_map. reflexivity.
  - intros m. unfold exampleLabels. simpl. rewrite !length_map. reflexivity.
  - apply (Hall 12 _ (NamespaceObj exampleNamespace) _ eq_refl).
    eexists _, _. split; reflexivity.
Defined.

Lemma pod_info_sample_witness :
  emits (wrapPodFunc exampleSlack kube_pod_info_func (PodObj examplePod)) init_heap
    [ mkSample "kube_pod_info"
        [ "namespace"; "pod"; "host_ip"; "pod_ip"; "uid"; "node";
          "created_by_kind"; "created_by_name" ]
        [ "default"; "web-0"; "10.0.0.1"; "172.16.0.5"; "0d5d1d2c"; "node-1";
          "ReplicaSet"; "web" ]
        1%float ]
  /\ emits (wrapPodFunc exampleSlack kube_pod_info_func (PodObj examplePendingPod))
       init_heap
       [ mkSample "kube_pod_info"
           [ "namespace"; "pod"; "host_ip"; "pod_ip"; "uid"; "node";
             "created_by_kind"; "created_by_name" ]
           [ "default"; "orphan"; ""; ""; "0d5d1d2c"; ""; "<none>"; "<none>" ]
           1%float ].
Proof.
  split.
  - destruct (pod_info_sample exampleSlack examplePod init_heap)
      as (kind & name & He & _ & _ & _ & Hc).
    + unfold heap_ok. reflexivity.
    + destruct (Hc _ eq_refl) as (_ & Hk & _ & Hn).
      rewrite Hk, Hn in He by (simpl; discriminate). exact He.
  - destruct (pod_info_sample exampleSlack examplePendingPod init_heap)
      as (kind & name & He & _ & _ & Hnone & _).
    + unfold heap_ok. reflexivity.
    + destruct (Hnone eq_refl) as [-> ->]. exact He.
Defined.

Lemma generators_idempotent_witness :
  exists g fam1 h1 fam2 h2 ss,
    allMetricFamilies exampleSlack exampleLabels exampleLabels !! 2 = Some g
    /\ genName g = "kube_pod_status_phase"
    /\ GenerateFunc g (PodObj examplePod) init_heap = Ok (fam1, h1)
    /\ GenerateFunc g (PodObj examplePod) h1 = Ok (fam2, h2)
    /\ loadFamily h1 fam1 = Some ss
    /\ loadFamily h2 fam2 = Some ss
    /\ loadFamily h2 fam1 = Some ss.
Proof.
  exists {| genName := "kube_pod_status_phase";
            genType := metrics.MetricTypeGauge;
            genHelp := "The pods current phase.";
            GenerateFunc := wrapPodFunc exampleSlack kube_pod_status_phase_func |}.
  match goal with
  | |- context [GenerateFunc ?g _ init_heap] =>
      pose proof (generators_idempotent exampleSlack exampleLabels exampleLabels 2
                    g (PodObj examplePod) init_heap) as H;
      destruct (GenerateFunc g (PodObj examplePod) init_heap)
        as [[fam1 h1]|msg] eqn:E
  end.
  - destruct H as (_ & ss & fam2 & h2 & H1 & H2 & H3 & H4 & _).
    + unfold heap_ok. reflexivity.
    + reflexivity.
    + exists fam1, h1, fam2, h2, ss.
      split; [reflexivity|]. split; [reflexivity|]. split; [reflexivity|].
      split; [exact H2|]. split; [exact H1|]. split; [exact H3|exact H4].
  - vm_compute in E. discriminate E.
Defined.

(** ** The further properties at concrete objects *)

Lemma phase_sample_follows_phase_witness :
  emits (wrapPodFunc exampleSlack kube_pod_status_phase_func
           (PodObj exampleSucceededPod)) init_heap
    [ mkSample "kube_pod_status_phase" ["namespace"; "pod"; "phase"]
        ["default"; "job-0"; "Pending"] 0%float;
      mkSample "kube_pod_status_phase" ["namespace"; "pod"; "phase"]
        ["default"; "job-0"; "Succeeded"] 1%float;
      mkSample "kube_pod_status_phase" ["namespace"; "pod"; "phase"]
        ["default"; "job-0"; "Failed"] 0%float;
      mkSample "kube_pod_status_phase" ["namespace"; "pod"; "phase"]
        ["default"; "job-0"; "Running"] 0%float;
      mkSample "kube_pod_status_phase" ["namespace"; "pod"; "phase"]
        ["default"; "job-0"; "Unknown"] 0%float ].
Proof.
  apply (phase_sample_follows_phase exampleSlack exampleSucceededPod init_heap).
  - unfold heap_ok. reflexivity.
  - simpl. discriminate.
  - intros [Hd _]. apply Hd. reflexivity.
Defined.

Lemma phase_override_keeps_other_phases_witness :
  emits (wrapPodFunc exampleSlack kube_pod_status_phase_func (PodObj exampleFailedPod))
    init_heap
    [ mkSample "kube_pod_status_phase" ["namespace"; "pod"; "phase"]
        ["default"; "job-1"; "Pending"] 0%float;
      mkSample "kube_pod_status_phase" ["namespace"; "pod"; "phase"]
        ["default"; "job-1"; "Succeeded"] 0%float;
      mkSample "kube_pod_status_phase" ["namespace"; "pod"; "phase"]
        ["default"; "job-1"; "Failed"] 1%float;
      mkSample "kube_pod_status_phase" ["namespace"; "pod"; "phase"]
        ["default"; "job-1"; "Running"] 0%float;
      mkSample "kube_pod_status_phase" ["namespace"; "pod"; "phase"]
        ["default"; "job-1"; "Unknown"] 1%float ].
Proof.
  apply (phase_override_keeps_other_phases exampleSlack exampleFailedPod init_heap).
  - unfold heap_ok. reflexivity.
  - simpl. discriminate.
  - simpl. discriminate.
  - reflexivity.
Defined.

Lemma pod_owner_never_empty_witness :
  exists ss,
    emits (wrapPodFunc exampleSlack kube_pod_owner_func (PodObj examplePod))
      init_heap ss
    /\ length ss = 2
    /\ Forall (fun s => sName s = "kube_pod_owner" /\ sValue s = 1%float) ss.
Proof.
  apply (pod_owner_never_empty exampleSlack examplePod init_heap).
  unfold heap_ok. reflexivity.
Defined.

Lemma pod_info_agrees_with_owner_witness :
  exists owners s,
    emits (wrapPodFunc exampleSlack kube_pod_owner_func (PodObj examplePod))
      init_heap owners
    /\ s ∈ owners
    /\ drop 2 (sValues s) = ["ReplicaSet"; "web"; "true"].
Proof.
  destruct (pod_info_agrees_with_owner exampleSlack examplePod init_heap)
    as (info & owners & _ & Ho & Hc & _).
  - unfold heap_ok. reflexivity.
  - destruct (Hc _ eq_refl) as (s & Hs & Hd).
    exists owners, s. split; [exact Ho|]. split; [exact Hs|exact Hd].
Defined.

Lemma condition_absent_no_sample_witness :
  emits (wrapPodFunc exampleSlack kube_pod_status_ready_func
           (PodObj examplePendingPod)) init_heap []
  /\ emits (wrapPodFunc exampleSlack kube_pod_status_scheduled_func
              (PodObj examplePendingPod)) init_heap [].
Proof.
  destruct (condition_absent_no_sample exampleSlack examplePendingPod init_heap)
    as [Hr Hs].
  - unfold heap_ok. reflexivity.
  - split; [apply Hr|apply Hs]; intros c Hc; simpl in Hc;
      apply elem_of_nil in Hc; destruct Hc.
Defined.

Lemma waiting_reason_at_most_one_witness :
  exists groups,
    emits (wrapPodFunc exampleSlack kube_pod_container_status_waiting_reason_func
             (PodObj examplePod)) init_heap (concat groups)
    /\ length groups = 2.
Proof.
  destruct (waiting_reason_at_most_one exampleSlack examplePod init_heap)
    as (groups & He & HF).
  - unfold heap_ok. reflexivity.
  - exists groups. split; [exact He|].
    apply Forall2_length in HF. symmetry. exact HF.
Defined.

Lemma deployment_created_unix_seconds_witness :
  emits (wrapDeploymentFunc exampleSlack kube_deployment_created_func
           (DeploymentObj exampleCreatedDeployment)) init_heap
    [ mkSample "kube_deployment_created" ["namespace"; "deployment"]
        ["default"; "api"] (float64_of_int 1609459200) ].
Proof.
  apply (deployment_created_unix_seconds exampleSlack exampleCreatedDeployment
           init_heap).
  - unfold heap_ok. reflexivity.
  - left. simpl. discriminate.
Defined.

Lemma deployment_replica_samples_witness :
  emits (wrapDeploymentFunc exampleSlack kube_deployment_status_replicas_available_func
           (DeploymentObj exampleCreatedDeployment)) init_heap
    [ mkSample "kube_deployment_status_replicas_available"
        ["namespace"; "deployment"] ["default"; "api"] (float64_of_int 2) ]
  /\ emits (wrapDeploymentFunc exampleSlack kube_deployment_spec_replicas_func
              (DeploymentObj exampleCreatedDeployment)) init_heap
       [ mkSample "kube_deployment_spec_replicas"
           ["namespace"; "deployment"] ["default"; "api"] (float64_of_int 3) ].
Proof.
  destruct (deployment_replica_samples exampleSlack exampleCreatedDeployment init_heap)
    as (_ & Ha & _ & Hs).
  - unfold heap_ok. reflexivity.
  - split; [exact Ha|]. apply Hs. reflexivity.
Defined.

Lemma label_generators_one_sample_witness :
  emits (wrapNamespaceFunc exampleSlack (kube_namespace_labels_func exampleLabels)
           (NamespaceObj exampleNamespace)) init_heap
    [ mkSample "kube_namespace_labels" ["namespace"; "label_app"] ["default"; "web"]
        1%float ].
Proof.
  destruct (label_generators_one_sample exampleSlack exampleLabels exampleLabels
              init_heap) as (_ & Hn & _).
  - unfold heap_ok. reflexivity.
  - exact (Hn exampleNamespace).
Defined.

Lemma plain_sample_shares_default_keys_witness :
  exists m h' cell,
    wrapDeploymentFunc exampleSlack kube_deployment_status_replicas_func
      (DeploymentObj exampleDeployment) init_heap = Ok ([m], h')
    /\ mets h' !! m = Some cell
    /\ metrics.LabelKeys cell = descDeploymentLabelsDefaultLabels
    /\ length (strs init_heap) <= s_ptr (metrics.LabelValues cell).
Proof.
  apply (plain_sample_shares_default_keys exampleSlack exampleDeployment init_heap).
  unfold heap_ok. reflexivity.
Defined.

Lemma wrappers_rewrite_only_the_family_witness :
  exists fam h0 h',
    kube_pod_info_func examplePendingPod init_heap = Ok (fam, h0)
    /\ wrapPodFunc exampleSlack kube_pod_info_func (PodObj examplePendingPod) init_heap
       = Ok (fam, h')
    /\ loadFamily h' fam
       = Some [ mkSample "kube_pod_info"
                  [ "namespace"; "pod"; "host_ip"; "pod_ip"; "uid"; "node";
                    "created_by_kind"; "created_by_name" ]
                  [ "default"; "orphan"; ""; ""; "0d5d1d2c"; ""; "<none>"; "<none>" ]
                  1%float ]
    /\ strs h0 `prefix_of` strs h'.
Proof.
  assert (E : exists fam h0 ss,
             kube_pod_info_func examplePendingPod init_heap = Ok (fam, h0)
             /\ heap_ok h0 /\ NoDup fam /\ loadFamily h0 fam = Some ss
             /\ map (withDefaults ["namespace"; "pod"] ["default"; "orphan"]) ss
                = [ mkSample "kube_pod_info"
                      [ "namespace"; "pod"; "host_ip"; "pod_ip"; "uid"; "node";
                        "created_by_kind"; "created_by_name" ]
                      [ "default"; "orphan"; ""; ""; "0d5d1d2c"; ""; "<none>";
                        "<none>" ]
                      1%float ]).
  { eexists _, _, _. split; [vm_compute; reflexivity|].
    split; [eexists; reflexivity|].
    split; [apply NoDup_singleton|].
    split; reflexivity. }
  destruct E as (fam & h0 & ss & Hf & Hok & Hnd & Hl & Hss).
  destruct (wrappers_rewrite_only_the_family exampleSlack init_heap h0 fam ss
              Hok Hnd Hl) as [Hpod _].
  destruct (Hpod kube_pod_info_func examplePendingPod Hf)
    as (h' & Hw & Hl' & Hp & _).
  exists fam, h0, h'. split; [exact Hf|]. split; [exact Hw|].
  split; [|exact Hp]. rewrite <- Hss. exact Hl'.
Defined.

Lemma wrapper_prepends_per_occurrence_witness :
  exists h',
    wrapPodFunc exampleSlack exampleTwice (PodObj examplePendingPod) init_heap
    = Ok ([0; 0], h')
    /\ loadSample h' 0
       = Some (mkSample "kube_pod_info"
                 [ "namespace"; "pod"; "namespace"; "pod"; "host_ip"; "pod_ip";
                   "uid"; "node"; "created_by_kind"; "created_by_name" ]
                 [ "default"; "orphan"; "default"; "orphan"; ""; ""; "0d5d1d2c"; "";
                   "<none>"; "<none>" ]
                 1%float).
Proof.
  assert (E : exists h0,
             exampleTwice examplePendingPod init_heap = Ok ([0; 0], h0)
             /\ heap_ok h0
             /\ loadSample h0 0
                = Some (mkSample "kube_pod_info"
                          [ "host_ip"; "pod_ip"; "uid"; "node"; "created_by_kind";
                            "created_by_name" ]
                          [ ""; ""; "0d5d1d2c"; ""; "<none>"; "<none>" ]
                          1%float)).
  { eexists. split; [vm_compute; reflexivity|].
    split; [eexists; reflexivity|reflexivity]. }
  destruct E as (h0 & Hf & Hok & Hs).
  exact (wrapper_prepends_per_occurrence exampleSlack exampleTwice examplePendingPod
           init_heap h0 0 _ Hf Hok Hs).
Defined.

Lemma generators_return_what_they_allocate_witness :
  exists g fam h1,
    allMetricFamilies exampleSlack exampleLabels exampleLabels !! 2 = Some g
    /\ GenerateFunc g (PodObj examplePod) init_heap = Ok (fam, h1)
    /\ extends init_heap h1
    /\ NoDup fam.
Proof.
  exists {| genName := "kube_pod_status_phase";
            genType := metrics.MetricTypeGauge;
            genHelp := "The pods current phase.";
            GenerateFunc := wrapPodFunc exampleSlack kube_pod_status_phase_func |}.
  match goal with
  | |- context [GenerateFunc ?g _ init_heap] =>
      pose proof (generators_return_what_they_allocate exampleSlack exampleLabels
                    exampleLabels 2 g (PodObj examplePod) init_heap) as H;
      destruct (GenerateFunc g (PodObj examplePod) init_heap)
        as [[fam h1]|msg] eqn:E
  end.
  - destruct (H h1 fam) as (He & _ & Hnd & _).
    + unfold heap_ok. reflexivity.
    + reflexivity.
    + reflexivity.
    + exists fam, h1. split; [reflexivity|]. split; [reflexivity|].
      split; [exact He|exact Hnd].
  - vm_compute in E. discriminate E.
Defined.

Lemma samples_named_after_generator_witness :
  Forall (fun s => sName s = "kube_namespace_annotations")
    [ mkSample "kube_namespace_annotations" ["namespace"] ["default"] 1%float ].
Proof.
  apply (samples_named_after_generator exampleSlack exampleLabels exampleLabels 13
           {| genName := descNamespaceAnnotationsName;
              genType := metrics.MetricTypeGauge;
              genHelp := descNamespaceAnnotationsHelp;
              GenerateFunc :=
                wrapNamespaceFunc exampleSlack
                  (kube_namespace_annotations_func exampleLabels) |}
           (NamespaceObj exampleNamespace) init_heap).
  - unfold heap_ok. reflexivity.
  - reflexivity.
  - eexists _, _. split; reflexivity.
Defined.

Lemma label_keys_distinct_witness :
  Forall (fun s => NoDup (sKeys s))
    [ mkSample "kube_pod_owner"
        ["namespace"; "pod"; "owner_kind"; "owner_name"; "owner_is_controller"]
        ["default"; "orphan"; "<none>"; "<none>"; "<none>"] 1%float ].
Proof.
  apply (label_keys_distinct exampleSlack exampleLabels exampleLabels 1
           {| genName := "kube_pod_owner";
              genType := metrics.MetricTypeGauge;
              genHelp := "Information about the Pod's owner.";
              GenerateFunc := wrapPodFunc exampleSlack kube_pod_owner_func |}
           (PodObj examplePendingPod) init_heap).
  - unfold heap_ok. reflexivity.
  - reflexivity.
  - apply (bool_decide_unpack _). vm_compute. exact I.
  - eexists _, _. split; reflexivity.
Defined.

Lemma pod_samples_are_indicators_witness :
  Forall (fun s => sValue s = 0%float \/ sValue s = 1%float)
    [ mkSample "kube_pod_owner"
        ["namespace"; "pod"; "owner_kind"; "owner_name"; "owner_is_controller"]
        ["default"; "orphan"; "<none>"; "<none>"; "<none>"] 1%float ].
Proof.
  apply (pod_samples_are_indicators exampleSlack exampleLabels exampleLabels 1
           {| genName := "kube_pod_owner";
              genType := metrics.MetricTypeGauge;
              genHelp := "Information about the Pod's owner.";
              GenerateFunc := wrapPodFunc exampleSlack kube_pod_owner_func |}
           examplePendingPod init_heap).
  - unfold heap_ok. reflexivity.
  - reflexivity.
  - eexists _, _. split; reflexivity.
Defined.

Lemma termination_reason_at_most_one_witness :
  exists reasons,
    elems init_heap containerTerminatedReasons = Some reasons
    /\ length reasons = 4
    /\ forall r,
         terminationReason
           {| v1.containerName := "app";
              v1.State := {| v1.Waiting := Some {| v1.waitingReason_ := "CrashLoopBackOff" |};
                             v1.Terminated := None |};
              v1.LastTerminationState :=
                {| v1.Waiting := None;
                   v1.Terminated := Some {| v1.terminatedReason := "OOMKilled" |} |} |}
           r = false.
Proof.
  destruct (termination_reason_at_most_one
              {| v1.containerName := "app";
                 v1.State := {| v1.Waiting := Some {| v1.waitingReason_ := "CrashLoopBackOff" |};
                                v1.Terminated := None |};
                 v1.LastTerminationState :=
                   {| v1.Waiting := None;
                      v1.Terminated := Some {| v1.terminatedReason := "OOMKilled" |} |} |}
              init_heap) as (reasons & He & _ & _ & Hnil & _).
  - unfold heap_ok. reflexivity.
  - exists reasons. split; [exact He|]. split.
    + apply elems_length in He. exact He.
    + apply Hnil. reflexivity.
Defined.
